(** * go-playstation-api: token lifecycle and request dispatch

    A shallow embedding of the authentication engine of the package
    [playstation] ([auth.go], the request file, [client.go], [types.go])
    and the properties of its credential validator, token exchange,
    lazy refresh, status handling, decoding layer and client builder.

    Conventions of the embedding.
    - A Go [string] is a sequence of bytes: Rocq's [string]; [len] is
      [String.length].
    - [int64] and [time.Duration] are [Z] with the wrap-around of the
      multiplication written out ([wrap64]).
    - A [time.Time] is the instant it denotes, in nanoseconds, as [Z];
      [Add] is addition and [Before] is [<]. (The instants the program
      handles are wall-clock readings displaced by one [Duration], far
      inside the range where Go's [Time.Add] is exact.)
    - A Go function returning [(T, error)] returns a [result T].
    - What the program does to the outside (reading the clock, an HTTP
      round trip, asking the context whether it is done, printing) is
      recorded in a chronological [Trace]; the outside answers as a
      function of the history so far. A run-time panic (nil
      dereference, call of a nil function) is [None].
    - [http.Client] values are held through pointers and live in a
      heap, so that copying one can be told apart from changing it. *)

From Stdlib Require Import ZArith String List Lia Bool DecimalString.
From stdpp Require Import base option gmap.
Import ListNotations.

Local Open Scope string_scope.
Local Open Scope Z_scope.

(** ** Errors *)

(** The error values of the package, one constructor per place where the
    source builds one; [ErrExternal] stands for an error produced by the
    Go standard library (transport, context, URL parser, JSON decoder),
    of which only the text is known. *)
Inductive error : Type :=
| ErrNPSSOEmpty                              (* errors.New("npsso is empty") *)
| ErrNPSSOLength                             (* errors.New("npsso must be exactly 64 characters") *)
| ErrInvalidNPSSO (e : error)                (* "invalid npsso: %v" *)
| ErrAuthRequest (e : error)                 (* "can't do auth request: %w" *)
| ErrNPSSORequired                           (* "npsso parameter is required" *)
| ErrCreatingRequest (e : error)             (* "error creating request: %w" *)
| ErrSendingRequest (e : error)              (* "error sending request: %w" *)
| ErrRequestCancelled (e : error)            (* "request cancelled: %w" *)
| ErrCheckNPSSO                              (* "error: check npsso" *)
| ErrParsingLocation (e : error)             (* "error parsing location URL: %w" *)
| ErrCreatingTokenRequest (e : error)        (* "error creating token request: %w" *)
| ErrSendingTokenRequest (e : error)         (* "error sending token request: %w" *)
| ErrTokenRequestCancelled (e : error)       (* "token request cancelled: %w" *)
| ErrObtainToken                             (* "error: unable to obtain Authentication Token" *)
| ErrReadingBody (e : error)                 (* "error reading response body: %w" *)
| ErrParsingToken (e : error)                (* "error parsing token response: %w" *)
| ErrInvalidTokens                           (* "invalid tokens: access token is required" *)
| ErrRefreshingTokens (e : error)            (* "error refreshing tokens: %w" *)
| ErrNotFound (url : string)                 (* "resource not found: %s" *)
| ErrRateLimit                               (* "rate limit exceeded" *)
| ErrUnexpectedStatus (code : Z) (body : string)
                                             (* "unexpected status code: %d, body: %s" *)
| ErrUnmarshal (e : error) (body : string)   (* "error unmarshaling response: %w, body: %s" *)
| ErrRequestError (message : string)         (* "request error: %s" *)
| ErrUnsupportedLang (lang : string)         (* "unsupported lang %s" *)
| ErrUnsupportedRegion (region : string)     (* "unsupported region %s" *)
| ErrNilHttpClient                           (* "cannot use nil httpClient" *)
| ErrUseLastResponse                         (* http.ErrUseLastResponse *)
| ErrExternal (msg : string).

(** [%d] of an integer. *)
Definition itoa (z : Z) : string := NilEmpty.string_of_int (Z.to_int z).

(** The text [err.Error()] gives. *)
Fixpoint Error (e : error) : string :=
  match e with
  | ErrNPSSOEmpty => "npsso is empty"
  | ErrNPSSOLength => "npsso must be exactly 64 characters"
  | ErrInvalidNPSSO e => "invalid npsso: " ++ Error e
  | ErrAuthRequest e => "can't do auth request: " ++ Error e
  | ErrNPSSORequired => "npsso parameter is required"
  | ErrCreatingRequest e => "error creating request: " ++ Error e
  | ErrSendingRequest e => "error sending request: " ++ Error e
  | ErrRequestCancelled e => "request cancelled: " ++ Error e
  | ErrCheckNPSSO => "error: check npsso"
  | ErrParsingLocation e => "error parsing location URL: " ++ Error e
  | ErrCreatingTokenRequest e => "error creating token request: " ++ Error e
  | ErrSendingTokenRequest e => "error sending token request: " ++ Error e
  | ErrTokenRequestCancelled e => "token request cancelled: " ++ Error e
  | ErrObtainToken => "error: unable to obtain Authentication Token"
  | ErrReadingBody e => "error reading response body: " ++ Error e
  | ErrParsingToken e => "error parsing token response: " ++ Error e
  | ErrInvalidTokens => "invalid tokens: access token is required"
  | ErrRefreshingTokens e => "error refreshing tokens: " ++ Error e
  | ErrNotFound url => "resource not found: " ++ url
  | ErrRateLimit => "rate limit exceeded"
  | ErrUnexpectedStatus code body =>
      "unexpected status code: " ++ itoa code ++ ", body: " ++ body
  | ErrUnmarshal e body =>
      "error unmarshaling response: " ++ Error e ++ ", body: " ++ body
  | ErrRequestError message => "request error: " ++ message
  | ErrUnsupportedLang lang => "unsupported lang " ++ lang
  | ErrUnsupportedRegion region => "unsupported region " ++ region
  | ErrNilHttpClient => "cannot use nil httpClient"
  | ErrUseLastResponse => "net/http: use last response"
  | ErrExternal msg => msg
  end.

(** A Go result [(T, error)]: either the value with a nil error, or an
    error. *)
Inductive result (A : Type) : Type :=
| Ok (a : A)
| Fail (e : error).
Arguments Ok {A} a.
Arguments Fail {A} e.

(** ** Credential validator ([auth.go], [validateNPSSO]) *)

(** The returned [error]; [None] is [nil]. *)
Definition validateNPSSO (npsso : string) : option error :=
  if String.eqb npsso "" then Some ErrNPSSOEmpty
  else if negb (Nat.eqb (String.length npsso) 64) then Some ErrNPSSOLength
  else None.

(** ** Data model ([types.go]) *)

Definition Language := string.
Definition Region := string.

(** An instant, in nanoseconds. *)
Definition Time := Z.

(** [int64] arithmetic wraps around. *)
Definition wrap64 (z : Z) : Z := (z + 2 ^ 63) mod 2 ^ 64 - 2 ^ 63.

(** [time.Duration] is an [int64] count of nanoseconds. *)
Definition Duration := Z.
Definition time_Second : Duration := 1000000000.
Definition Duration_mul (a b : Duration) : Duration := wrap64 (a * b).

Definition Time_Add (t : Time) (d : Duration) : Time := t + d.
Definition Time_Before (t u : Time) : bool := t <? u.

Record Tokens : Type := mkTokens {
  AccessToken : string;           (* json:"access_token" *)
  RefreshToken : string;          (* json:"refresh_token" *)
  AccessExpires : Z;              (* int64, json:"expires_in" *)
  RefreshExpires : Z;             (* int64, json:"refresh_token_expires_in" *)
  AccessExpiresTime : Time;
  RefreshExpiresTime : Time
}.

(** The zero value of [Tokens]. *)
Definition zeroTokens : Tokens := mkTokens "" "" 0 0 0 0.

Definition setAccessExpiresTime (t : Tokens) (x : Time) : Tokens :=
  mkTokens (AccessToken t) (RefreshToken t) (AccessExpires t) (RefreshExpires t)
           x (RefreshExpiresTime t).

Definition setRefreshExpiresTime (t : Tokens) (x : Time) : Tokens :=
  mkTokens (AccessToken t) (RefreshToken t) (AccessExpires t) (RefreshExpires t)
           (AccessExpiresTime t) x.

(** The inner struct of [RequestError]. *)
Record RequestErrorBody : Type := mkRequestErrorBody {
  Reason : string;                (* json:"reason" *)
  Source : string;                (* json:"source" *)
  Code : Z;                       (* int, json:"code" *)
  Message : string;               (* json:"message" *)
  ReferenceID : string            (* json:"referenceId" *)
}.

Record RequestError : Type := mkRequestError {
  Error_ : RequestErrorBody       (* field Error, json:"error" *)
}.

Definition zeroRequestError : RequestError :=
  mkRequestError (mkRequestErrorBody "" "" 0 "" "").

(** ** HTTP values ([net/http]) *)

Definition Header := list (string * string).

Fixpoint Header_Get (h : Header) (key : string) : string :=
  match h with
  | [] => ""
  | (k, v) :: h' => if String.eqb k key then v else Header_Get h' key
  end.

(** [Header.Set]: the key now has this value only. *)
Definition Header_Set (h : Header) (key value : string) : Header :=
  (List.filter (fun kv => negb (String.eqb (fst kv) key)) h ++ [(key, value)])%list.

(** [Header.Add]: one more value for the key. *)
Definition Header_Add (h : Header) (key value : string) : Header :=
  (h ++ [(key, value)])%list.

Record Request : Type := mkRequest {
  Method : string;
  URL : string;
  ReqHeader : Header;
  ReqBody : string
}.

Definition Request_Header_Set (r : Request) (key value : string) : Request :=
  mkRequest (Method r) (URL r) (Header_Set (ReqHeader r) key value) (ReqBody r).

Definition Request_Header_Add (r : Request) (key value : string) : Request :=
  mkRequest (Method r) (URL r) (Header_Add (ReqHeader r) key value) (ReqBody r).

(** A response as the program sees it: the status line and headers are
    there when [Do] returns; [Body] is what [io.ReadAll(resp.Body)] will
    give, and [CloseFails] whether [resp.Body.Close()] returns an error. *)
Record Response : Type := mkResponse {
  StatusCode : Z;
  RespHeader : Header;
  Body : result string;
  CloseFails : bool
}.

Definition http_StatusOK : Z := 200.
Definition http_StatusFound : Z := 302.
Definition http_StatusUnauthorized : Z := 401.
Definition http_StatusForbidden : Z := 403.
Definition http_StatusNotFound : Z := 404.
Definition http_StatusTooManyRequests : Z := 429.

(** The address of an [http.Client] in the heap. *)
Definition loc := positive.

(** The [CheckRedirect] policy of an [http.Client]: given the upcoming
    request and the requests made so far, an error to stop or [None] to
    follow the redirect. *)
Definition CheckRedirectFunc := Request -> list Request -> option error.

(** [http.Client]. [Transport] and [Jar] are interface values, known by
    their identity only; [None] is nil. *)
Record HttpClient : Type := mkHttpClient {
  Transport : option nat;
  CheckRedirect : option CheckRedirectFunc;
  Jar : option nat;
  Timeout : Duration
}.

(** [Client]. [httpClient] is a pointer; [None] is nil. *)
Record Client : Type := mkClient {
  httpClient : option loc;
  lang : Language;
  region : Region
}.

(** [Options]: a function that configures the [Client] it is given a
    pointer to. *)
Definition Options := Client -> Client.

(** [ClientAPI]. [Tokens_] is a pointer to a [Tokens] that is never
    written after its creation; [None] is nil. [Client_] points to a
    [Client], whose fields nothing changes once [NewClient] returned. *)
Record ClientAPI : Type := mkClientAPI {
  Client_ : Client;
  Tokens_ : option Tokens;
  NPSSO : string
}.

(** ** The world *)

Inductive Event : Type :=
| EvNow (t : Time)                            (* time.Now() returned t *)
| EvDo (req : Request) (res : result Response)  (* httpClient.Do(req) *)
| EvCtxErr (e : option error)                 (* ctx.Err() returned e *)
| EvPrintln (s : string)                      (* fmt.Println(s) *)
| EvAuthRequest (npsso : string).             (* authRequest was entered *)

Definition Trace := list Event.

(** A [context.Context]: what [ctx.Err()] answers, given what happened
    so far. *)
Definition Context := Trace -> option error.

Record World : Type := mkWorld {
  heap : gmap loc HttpClient;
  trace : Trace
}.

(** What the program relies on from outside the package: the clock,
    the network behind an [http.Client], and the standard library's URL
    and JSON functions. *)
Record Platform : Type := mkPlatform {
  (* time.Now(), given the history *)
  time_Now : Trace -> Time;
  (* the Do method of an http.Client, for the client value, the history
     and the request *)
  http_Do : HttpClient -> Trace -> Request -> result Response;
  (* the parsed URL type *)
  url_URL : Type;
  (* url.Parse *)
  url_Parse : string -> result url_URL;
  (* u.Query().Get(key) *)
  url_Query_Get : url_URL -> string -> string;
  (* url.Values.Encode *)
  url_Values_Encode : list (string * string) -> string;
  (* json.Unmarshal(body, &tokens): the error and the target afterwards *)
  json_Unmarshal_Tokens : string -> Tokens -> option error * Tokens;
  (* json.Unmarshal(body, &requestError) *)
  json_Unmarshal_RequestError : string -> RequestError -> option error * RequestError;
  (* Languages[0] and Regions[0]; the two slices and IsContain are
     declared in a file of the package that is not among the sources *)
  Languages_0 : Language;
  Regions_0 : Region;
  (* IsContain(Languages, l) and IsContain(Regions, r) *)
  IsContain_Languages : Language -> bool;
  IsContain_Regions : Region -> bool
}.

(** [json.Unmarshal(body, v)] for a target of type [V]. *)
Definition Unmarshaler (V : Type) := string -> V -> option error * V.

(** ** The monad of the program: state passing over the world; [None]
    is a panic. *)

Definition M (A : Type) : Type := World -> option (A * World).

Definition ret {A} (a : A) : M A := fun w => Some (a, w).

Definition bind {A B} (m : M A) (k : A -> M B) : M B :=
  fun w => match m w with
           | Some (a, w') => k a w'
           | None => None
           end.

Definition panic {A} : M A := fun _ => None.

Declare Scope go_scope.
Delimit Scope go_scope with go.
Notation "x <- m ;; k" := (bind m (fun x => k))
  (at level 100, m at next level, right associativity) : go_scope.
Notation "m ;;; k" := (bind m (fun _ => k))
  (at level 100, right associativity) : go_scope.
Local Open Scope go_scope.

Definition emit (e : Event) : M unit :=
  fun w => Some (tt, mkWorld (heap w) (trace w ++ [e])%list).

Definition deref (p : option loc) : M HttpClient :=
  fun w => match p with
           | Some l => match heap w !! l with
                       | Some hc => Some (hc, w)
                       | None => None
                       end
           | None => None
           end.

(** [new(http.Client)] holding [hc]: a fresh address. *)
Definition alloc (hc : HttpClient) : M loc :=
  fun w => let l := fresh (dom (heap w)) in
           Some (l, mkWorld (<[l := hc]> (heap w)) (trace w)).

Section Program.

Context (P : Platform).

(** ** Effects *)

(** [time.Now()] *)
Definition now : M Time :=
  fun w => let t := time_Now P (trace w) in
           Some (t, mkWorld (heap w) (trace w ++ [EvNow t])%list).

(** [ctx.Err()] *)
Definition ctxErr (ctx : Context) : M (option error) :=
  fun w => let e := ctx (trace w) in
           Some (e, mkWorld (heap w) (trace w ++ [EvCtxErr e])%list).

(** [c.httpClient.Do(req)] *)
Definition clientDo (c : Client) (req : Request) : M (result Response) :=
  hc <- deref (httpClient c) ;;
  fun w => let res := http_Do P hc (trace w) req in
           Some (res, mkWorld (heap w) (trace w ++ [EvDo req res])%list).

(** [http.NewRequestWithContext(ctx, method, url, body)], for a non-nil
    context and a valid method (the program passes "GET" and "POST"
    only): it fails when the URL does not parse. *)
Definition http_NewRequestWithContext (method url body : string) : result Request :=
  match url_Parse P url with
  | Ok _ => Ok (mkRequest method url [] body)
  | Fail e => Fail e
  end.

(** ** Token exchange ([auth.go], [authRequest]) *)

Definition authorizeParams : list (string * string) :=
  [ ("access_type", "offline");
    ("client_id", "09515159-7237-4370-9b40-3806e67c0891");
    ("response_type", "code");
    ("scope", "psn:mobile.v2.core psn:clientapp");
    ("redirect_uri", "com.scee.psxandroid.scecompcall://redirect") ].

Definition authURL : string :=
  "https://ca.account.sony.com/api/authz/v3/oauth/authorize?"
  ++ url_Values_Encode P authorizeParams.

Definition tokenURL : string :=
  "https://ca.account.sony.com/api/authz/v3/oauth/token".

Definition tokenData (code : string) : list (string * string) :=
  [ ("code", code);
    ("redirect_uri", "com.scee.psxandroid.scecompcall://redirect");
    ("grant_type", "authorization_code");
    ("token_format", "jwt") ].

Definition basicAuthorization : string :=
  "Basic MDk1MTUxNTktNzIzNy00MzcwLTliNDAtMzgwNmU2N2MwODkxOnVjUGprYTV0bnRCMktxc1A=".

(** The authorization request, as [authRequest] builds it. *)
Definition authorizeRequest (npsso : string) : Request :=
  mkRequest "GET" authURL [("Cookie", "npsso=" ++ npsso)] "".

(** The token request, as [authRequest] builds it. *)
Definition tokenRequest (code : string) : Request :=
  mkRequest "POST" tokenURL
    [("Content-Type", "application/x-www-form-urlencoded");
     ("Authorization", basicAuthorization)]
    (url_Values_Encode P (tokenData code)).

(** The end of [authRequest], from the decoding of the 200 response on:
    the two expiry instants are set from two readings of the clock. *)
Definition setExpirationTimes (tokenResponse : Tokens) : M (result Tokens) :=
  t1 <- now ;;
  let tokenResponse :=
    setAccessExpiresTime tokenResponse
      (Time_Add t1 (Duration_mul time_Second (AccessExpires tokenResponse))) in
  t2 <- now ;;
  let tokenResponse :=
    setRefreshExpiresTime tokenResponse
      (Time_Add t2 (Duration_mul time_Second (RefreshExpires tokenResponse))) in
  ret (Ok tokenResponse).

(** The token step of [authRequest]: from the extracted code on. *)
Definition tokenStep (c : Client) (ctx : Context) (code : string) : M (result Tokens) :=
  match http_NewRequestWithContext "POST" tokenURL
          (url_Values_Encode P (tokenData code)) with
  | Fail e => ret (Fail (ErrCreatingTokenRequest e))
  | Ok tokenReq =>
    let tokenReq :=
      Request_Header_Set tokenReq "Content-Type" "application/x-www-form-urlencoded" in
    let tokenReq := Request_Header_Set tokenReq "Authorization" basicAuthorization in
    r <- clientDo c tokenReq ;;
    match r with
    | Fail e => ret (Fail (ErrSendingTokenRequest e))
    | Ok tokenResp =>
      cancelled <- ctxErr ctx ;;
      match cancelled with
      | Some e => ret (Fail (ErrTokenRequestCancelled e))
      | None =>
        if negb (StatusCode tokenResp =? http_StatusOK)
        then ret (Fail ErrObtainToken)
        else
          match Body tokenResp with
          | Fail e => ret (Fail (ErrReadingBody e))
          | Ok body =>
            match json_Unmarshal_Tokens P body zeroTokens with
            | (Some e, _) => ret (Fail (ErrParsingToken e))
            | (None, tokenResponse) => setExpirationTimes tokenResponse
            end
          end
      end
    end
  end.

(** [authRequest]. The first event is the mark that the exchange was
    entered; the rest follows the source. (The two deferred
    [Body.Close()] drop their error and leave no trace.) *)
Definition authRequest (c : Client) (ctx : Context) (npsso : string) : M (result Tokens) :=
  emit (EvAuthRequest npsso) ;;;
  if String.eqb npsso "" then ret (Fail ErrNPSSORequired)
  else
    match http_NewRequestWithContext "GET" authURL "" with
    | Fail e => ret (Fail (ErrCreatingRequest e))
    | Ok req =>
      let req := Request_Header_Add req "Cookie" ("npsso=" ++ npsso) in
      r <- clientDo c req ;;
      match r with
      | Fail e => ret (Fail (ErrSendingRequest e))
      | Ok resp =>
        cancelled <- ctxErr ctx ;;
        match cancelled with
        | Some e => ret (Fail (ErrRequestCancelled e))
        | None =>
          if negb (StatusCode resp =? http_StatusFound)
          then ret (Fail ErrCheckNPSSO)
          else
            let location := Header_Get (RespHeader resp) "Location" in
            match url_Parse P location with
            | Fail e => ret (Fail (ErrParsingLocation e))
            | Ok locationURL =>
              let code := url_Query_Get P locationURL "code" in
              if negb (String.prefix "v3" code)
              then ret (Fail ErrCheckNPSSO)
              else tokenStep c ctx code
            end
        end
      end
    end.

(** [Authenticate] *)
Definition Authenticate (c : Client) (ctx : Context) (npsso : string) : M (result ClientAPI) :=
  match validateNPSSO npsso with
  | Some err => ret (Fail (ErrInvalidNPSSO err))
  | None =>
    r <- authRequest c ctx npsso ;;
    match r with
    | Fail err => ret (Fail (ErrAuthRequest err))
    | Ok tokens => ret (Ok (mkClientAPI c (Some tokens) npsso))
    end
  end.

(** ** Protected calls (the request file) *)

(** The [switch resp.StatusCode] of [request]. *)
Definition handleStatus (url : string) (status : Z) (body : string) : result string :=
  if status =? http_StatusOK then Ok body
  else if status =? http_StatusUnauthorized then Ok body
  else if status =? http_StatusForbidden then Ok body
  else if status =? http_StatusNotFound then Fail (ErrNotFound url)
  else if status =? http_StatusTooManyRequests then Fail ErrRateLimit
  else Fail (ErrUnexpectedStatus status body).

(** [request], from the creation of the GET on: the part after the
    refresh. The deferred closing of the body prints when it fails. *)
Definition dispatch (c : ClientAPI) (ctx : Context) (url : string) : M (result string) :=
  match http_NewRequestWithContext "GET" url "" with
  | Fail e => ret (Fail (ErrCreatingRequest e))
  | Ok req =>
    match Tokens_ c with
    | None => panic
    | Some tokens =>
      let req := Request_Header_Set req "Authorization" ("Bearer " ++ AccessToken tokens) in
      let req := Request_Header_Set req "Accept" "application/json" in
      let req :=
        if negb (String.eqb (lang (Client_ c)) "")
        then Request_Header_Set req "Accept-Language" (lang (Client_ c))
        else req in
      r <- clientDo (Client_ c) req ;;
      match r with
      | Fail e => ret (Fail (ErrSendingRequest e))
      | Ok resp =>
        let res :=
          match Body resp with
          | Fail e => Fail (ErrReadingBody e)
          | Ok body => handleStatus url (StatusCode resp) body
          end in
        (if CloseFails resp then emit (EvPrintln "Error closing body") else ret tt) ;;;
        ret res
      end
    end
  end.

Definition setTokens (c : ClientAPI) (t : Tokens) : ClientAPI :=
  mkClientAPI (Client_ c) (Some t) (NPSSO c).

(** [request]: the result and the receiver afterwards. *)
Definition request (c : ClientAPI) (ctx : Context) (url : string)
  : M (result string * ClientAPI) :=
  match Tokens_ c with
  | None => ret (Fail ErrInvalidTokens, c)
  | Some tokens =>
    if String.eqb (AccessToken tokens) "" then ret (Fail ErrInvalidTokens, c)
    else
      t <- now ;;
      if Time_Before (AccessExpiresTime tokens) t then
        r <- authRequest (Client_ c) ctx (NPSSO c) ;;
        match r with
        | Fail err => ret (Fail (ErrRefreshingTokens err), c)
        | Ok newTokens =>
          let c := setTokens c newTokens in
          b <- dispatch c ctx url ;;
          ret (b, c)
        end
      else
        b <- dispatch c ctx url ;;
        ret (b, c)
  end.

(** [requestAndUnmarshal]: the returned error, the target [v] afterwards
    and the receiver afterwards. *)
Definition requestAndUnmarshal {V : Type} (unmarshal : Unmarshaler V)
    (c : ClientAPI) (ctx : Context) (url : string) (v : V)
  : M (option error * V * ClientAPI) :=
  rc <- request c ctx url ;;
  let '(r, c) := rc in
  match r with
  | Fail err => ret (Some err, v, c)
  | Ok body =>
    match json_Unmarshal_RequestError P body zeroRequestError with
    | (Some err, _) => ret (Some (ErrUnmarshal err body), v, c)
    | (None, requestError) =>
      if negb (Code (Error_ requestError) =? 0)
      then ret (Some (ErrRequestError (Message (Error_ requestError))), v, c)
      else
        match unmarshal body v with
        | (Some err, v) => ret (Some (ErrUnmarshal err body), v, c)
        | (None, v) => ret (None, v, c)
        end
    end
  end.

(** ** Client builder ([client.go]) *)

(** [http.DefaultClient], a global pointer. *)
Definition http_DefaultClient : option loc := Some 1%positive.

Definition defaultConfig : Client :=
  mkClient http_DefaultClient (Languages_0 P) (Regions_0 P).

(** [for _, opt := range opts { opt(&c) }]; a nil option cannot be
    called. *)
Fixpoint applyOptions (opts : list (option Options)) (c : Client) : M Client :=
  match opts with
  | [] => ret c
  | Some opt :: opts' => applyOptions opts' (opt c)
  | None :: _ => panic
  end.

Definition useLastResponse : CheckRedirectFunc :=
  fun req via => Some ErrUseLastResponse.

Definition setCheckRedirect (hc : HttpClient) (f : CheckRedirectFunc) : HttpClient :=
  mkHttpClient (Transport hc) (Some f) (Jar hc) (Timeout hc).

(** [NewClient] *)
Definition NewClient (opts : list (option Options)) : M Client :=
  c <- applyOptions opts defaultConfig ;;
  httpClient0 <- deref (httpClient c) ;;
  let httpClient1 := setCheckRedirect httpClient0 useLastResponse in
  l <- alloc httpClient1 ;;
  ret (mkClient (Some l) (lang c) (region c)).

(** [WithLanguage], [WithRegion], [WithClient]: the option, or nil and
    an error. *)
Definition WithLanguage (l : Language) : option Options * option error :=
  if negb (IsContain_Languages P l) then (None, Some (ErrUnsupportedLang l))
  else (Some (fun c => mkClient (httpClient c) l (region c)), None).

Definition WithRegion (r : Region) : option Options * option error :=
  if negb (IsContain_Regions P r) then (None, Some (ErrUnsupportedRegion r))
  else (Some (fun c => mkClient (httpClient c) (lang c) r), None).

Definition WithClient (client : option loc) : option Options * option error :=
  match client with
  | None => (None, Some ErrNilHttpClient)
  | Some _ => (Some (fun c => mkClient client (lang c) (region c)), None)
  end.

End Program.

(** ** A small concrete platform

    A clock that advances by one nanosecond per event, a scripted
    network, and toy versions of the URL and JSON functions: enough to
    run the program on concrete inputs. *)
Module Fixture.

Definition clock (tr : Trace) : Time :=
  1700000000000000000 + Z.of_nat (List.length tr).

(** The network: the token request is the POST, the authorization
    request is the one with a cookie, anything else is a resource
    request. *)
Definition network (authorize token resource : result Response)
  : HttpClient -> Trace -> Request -> result Response :=
  fun _ _ req =>
    if String.eqb (Method req) "POST" then token
    else if negb (String.eqb (Header_Get (ReqHeader req) "Cookie") "") then authorize
    else resource.

(** URLs are kept as text; the only text that does not parse is
    "%zz". *)
Definition parse (s : string) : result string :=
  if String.eqb s "%zz" then Fail (ErrExternal "invalid URL escape %zz") else Ok s.

(** The text between the first [key=] and the next [&]. *)
Definition queryGet (u key : string) : string :=
  match String.index 0 (key ++ "=") u with
  | None => ""
  | Some i =>
    let start := (i + String.length key + 1)%nat in
    let rest := String.substring start (String.length u - start) u in
    match String.index 0 "&" rest with
    | None => rest
    | Some j => String.substring 0 j rest
    end
  end.

Fixpoint encode (kvs : list (string * string)) : string :=
  match kvs with
  | [] => ""
  | [(k, v)] => k ++ "=" ++ v
  | (k, v) :: kvs' => k ++ "=" ++ v ++ "&" ++ encode kvs'
  end.

(** Every body but "not json" decodes, to the tokens "A" and "B" with
    the given lifetimes. *)
Definition unmarshalTokens (expires refresh : Z) : Unmarshaler Tokens :=
  fun body t =>
    if String.eqb body "not json" then (Some (ErrExternal "invalid character"), t)
    else (None, mkTokens "A" "B" expires refresh
                         (AccessExpiresTime t) (RefreshExpiresTime t)).

(** A body that starts with "error:" is an error envelope with code
    2105356 and the rest as message. *)
Definition unmarshalRequestError : Unmarshaler RequestError :=
  fun body r =>
    if String.eqb body "not json" then (Some (ErrExternal "invalid character"), r)
    else if String.prefix "error:" body
    then (None, mkRequestError
                  (mkRequestErrorBody "" "" 2105356
                     (String.substring 6 (String.length body - 6) body) ""))
    else (None, r).

(** A target shape: the body itself. *)
Definition unmarshalText : Unmarshaler string :=
  fun body v =>
    if String.eqb body "not json" then (Some (ErrExternal "invalid character"), v)
    else if String.eqb body "wrong shape" then (Some (ErrExternal "cannot unmarshal"), v)
    else (None, body).

Definition platform (authorize token resource : result Response)
    (expires refresh : Z) : Platform :=
  {| time_Now := clock;
     http_Do := network authorize token resource;
     url_URL := string;
     url_Parse := parse;
     url_Query_Get := queryGet;
     url_Values_Encode := encode;
     json_Unmarshal_Tokens := unmarshalTokens expires refresh;
     json_Unmarshal_RequestError := unmarshalRequestError;
     Languages_0 := "en";
     Regions_0 := "us";
     IsContain_Languages := fun l => String.eqb l "en" || String.eqb l "fr";
     IsContain_Regions := fun r => String.eqb r "us" || String.eqb r "fr" |}.

Definition found : result Response :=
  Ok (mkResponse 302
        [("Location", "com.scee.psxandroid.scecompcall://redirect?code=v3abc&cid=1")]
        (Ok "") false).

Definition respond (status : Z) (body : string) : result Response :=
  Ok (mkResponse status [] (Ok body) false).

(** The server answers as it should: a redirect with a code, a token
    response with lifetimes of one hour and sixty days, and the
    resource. *)
Definition good (resource : result Response) : Platform :=
  platform found (respond 200 "tokens") resource 3600 5184000.

Definition background : Context := fun _ => None.
Definition cancelled : Context := fun _ => Some (ErrExternal "context canceled").

Definition defaultClient : HttpClient := mkHttpClient None None None 0.

(** A client of the caller, at address 2, with a policy of its own
    that follows every redirect. *)
Definition callerClient : HttpClient :=
  mkHttpClient (Some 7%nat) (Some (fun _ _ => None)) None 30000000000.

Definition w0 : World :=
  mkWorld (<[2%positive := callerClient]> {[1%positive := defaultClient]}) [].

Definition client : Client := mkClient (Some 1%positive) "en" "us".

Definition npsso : string :=
  "0123456789abcdef0123456789abcdef0123456789abcdef0123456789abcdef".

(** A session whose access token expired long ago. *)
Definition expired : ClientAPI :=
  mkClientAPI client (Some (mkTokens "old" "B" 3600 5184000 1000 2000)) npsso.

(** A session whose access token is good for long. *)
Definition valid : ClientAPI :=
  mkClientAPI client
    (Some (mkTokens "cur" "B" 3600 5184000 1800000000000000000 1800000000000000000))
    npsso.

(** A session with no access token, and an expiry in the past. *)
Definition unauthenticated : ClientAPI :=
  mkClientAPI client (Some (mkTokens "" "" 0 0 1000 2000)) npsso.

Definition url : string :=
  "https://m.np.playstation.com/api/userProfile/v1/internal/users/42/profiles".

End Fixture.

(** ** Observations on traces *)

(** The protected GET is the request that carries a bearer token; the
    two requests of the exchange carry a cookie and a Basic
    authorization. *)
Definition isBearer (req : Request) : bool :=
  String.prefix "Bearer " (Header_Get (ReqHeader req) "Authorization").

Definition isAuthRequest (e : Event) : bool :=
  match e with
  | EvAuthRequest _ => true
  | _ => false
  end.

(** How many times the exchange was entered. *)
Definition countAuthRequest (evs : list Event) : nat :=
  List.length (List.filter isAuthRequest evs).

(** An event the exchange may leave after its entry mark: a clock
    reading, a context check, or a round trip of a request without
    bearer token. *)
Definition isExchangeEvent (e : Event) : bool :=
  match e with
  | EvNow _ => true
  | EvCtxErr _ => true
  | EvDo req _ => negb (isBearer req)
  | EvPrintln _ => false
  | EvAuthRequest _ => false
  end.

(** An event the dispatch of the protected GET may leave: the round
    trip of a request carrying the given access token, or the print of
    the deferred close. *)
Definition isDispatchEvent (accessToken : string) (e : Event) : bool :=
  match e with
  | EvDo req _ =>
      String.eqb (Method req) "GET"
      && String.eqb (Header_Get (ReqHeader req) "Authorization") ("Bearer " ++ accessToken)
  | EvPrintln _ => true
  | _ => false
  end.

(** ** Response shapes ([types.go])

    The structs the three queries decode into, each in a module of its
    name; [t] is the struct and [zero] its zero value. The elements of
    the [[]interface{}] fields are of a type [any] that is left open. *)

Module UserAccountResponse.

Record Profile_ : Type := mkProfile {
  OnlineID : string;              (* json:"onlineId" *)
  AccountID : string;             (* json:"accountId" *)
  CurrentOnlineID : string        (* json:"currentOnlineId" *)
}.

Record t : Type := mk {
  Profile : Profile_              (* json:"profile" *)
}.

Definition zero : t := mk (mkProfile "" "" "").

End UserAccountResponse.

Module UserProfileResponse.

Record Picture : Type := mkPicture {
  Size : string;                  (* json:"size" *)
  URL : string                    (* json:"url" *)
}.

Record PersonalDetail_ : Type := mkPersonalDetail {
  FirstName : string;             (* json:"firstName" *)
  LastName : string;              (* json:"lastName" *)
  DisplayName : string;           (* json:"displayName" *)
  ProfilePictures : list Picture  (* json:"profilePictures" *)
}.

Record t : Type := mk {
  OnlineID : string;              (* json:"onlineId" *)
  PersonalDetail : PersonalDetail_;  (* json:"personalDetail" *)
  AboutMe : string;               (* json:"aboutMe" *)
  Avatars : list Picture;         (* json:"avatars" *)
  Languages : list string;        (* json:"languages" *)
  IsPlus : bool;                  (* json:"isPlus" *)
  IsOfficiallyVerified : bool;    (* json:"isOfficiallyVerified" *)
  IsMe : bool                     (* json:"isMe" *)
}.

Definition zero : t :=
  mk "" (mkPersonalDetail "" "" "" []) "" [] [] false false false.

End UserProfileResponse.

Module UserGamesResponse.

Record Image : Type := mkImage {
  URL : string;                   (* json:"url" *)
  Format : string;                (* json:"format" *)
  Type_ : string                  (* field Type, json:"type" *)
}.

Record Media_ (any : Type) : Type := mkMedia {
  Audios : list any;              (* json:"audios" *)
  Videos : list any;              (* json:"videos" *)
  Images : list Image             (* json:"images" *)
}.
Arguments mkMedia {any}.

Record Metadata_ : Type := mkMetadata {
  FiFI : string;                  (* json:"fi-FI" *)
  UkUA : string;                  (* json:"uk-UA" *)
  DeDE : string;                  (* json:"de-DE" *)
  EnUS : string;                  (* json:"en-US" *)
  KoKR : string;                  (* json:"ko-KR" *)
  PtBR : string;                  (* json:"pt-BR" *)
  EsES : string;                  (* json:"es-ES" *)
  ArAE : string;                  (* json:"ar-AE" *)
  NoNO : string;                  (* json:"no-NO" *)
  FrCA : string;                  (* json:"fr-CA" *)
  ItIT : string;                  (* json:"it-IT" *)
  PlPL : string;                  (* json:"pl-PL" *)
  RuRU : string;                  (* json:"ru-RU" *)
  ZhHans : string;                (* json:"zh-Hans" *)
  NlNL : string;                  (* json:"nl-NL" *)
  PtPT : string;                  (* json:"pt-PT" *)
  ZhHant : string;                (* json:"zh-Hant" *)
  SvSE : string;                  (* json:"sv-SE" *)
  DaDK : string;                  (* json:"da-DK" *)
  TrTR : string;                  (* json:"tr-TR" *)
  FrFR : string;                  (* json:"fr-FR" *)
  EnGB : string;                  (* json:"en-GB" *)
  Es419 : string;                 (* json:"es-419" *)
  JaJP : string                   (* json:"ja-JP" *)
}.

Record LocalizedName_ : Type := mkLocalizedName {
  DefaultLanguage : string;       (* json:"defaultLanguage" *)
  Metadata : Metadata_            (* json:"metadata" *)
}.

Record Concept_ (any : Type) : Type := mkConcept {
  ID : Z;                         (* int, json:"id" *)
  TitleIds : list string;         (* json:"titleIds" *)
  ConceptName : string;           (* field Name, json:"name" *)
  ConceptMedia : Media_ any;      (* field Media, json:"media" *)
  Genres : list string;           (* json:"genres" *)
  ConceptLocalizedName : LocalizedName_;  (* field LocalizedName, json:"localizedName" *)
  Country : string;               (* json:"country" *)
  Language_ : string              (* field Language, json:"language" *)
}.
Arguments mkConcept {any}.

Record Title (any : Type) : Type := mkTitle {
  TitleID : string;               (* json:"titleId" *)
  Name : string;                  (* json:"name" *)
  LocalizedName : string;         (* json:"localizedName" *)
  ImageURL : string;              (* json:"imageUrl" *)
  LocalizedImageURL : string;     (* json:"localizedImageUrl" *)
  Category : string;              (* json:"category" *)
  Service : string;               (* json:"service" *)
  PlayCount : Z;                  (* int, json:"playCount" *)
  Concept : Concept_ any;         (* json:"concept" *)
  Media : Media_ any;             (* json:"media" *)
  FirstPlayedDateTime : Time;     (* json:"firstPlayedDateTime" *)
  LastPlayedDateTime : Time;      (* json:"lastPlayedDateTime" *)
  PlayDuration : string           (* json:"playDuration" *)
}.
Arguments mkTitle {any}.

Record t (any : Type) : Type := mk {
  Titles : list (Title any);      (* json:"titles" *)
  NextOffset : Z;                 (* int, json:"nextOffset" *)
  PreviousOffset : Z;             (* int, json:"previousOffset" *)
  TotalItemCount : Z              (* int, json:"totalItemCount" *)
}.
Arguments mk {any}.

Definition zero (any : Type) : t any := mk [] 0 0 0.

End UserGamesResponse.

Section Queries.

Context (P : Platform).

(** ** The three queries (the request file)

    Each takes the [json.Unmarshal] of its response shape, and returns
    the result and the receiver afterwards. *)

(** [GetUserAccountId] *)
Definition GetUserAccountId (unmarshal : Unmarshaler UserAccountResponse.t)
    (c : ClientAPI) (ctx : Context) (onlineId : string)
  : M (result UserAccountResponse.t * ClientAPI) :=
  let url :=
    "https://us-prof.np.community.playstation.net/userProfile/v1/users/"
    ++ onlineId ++ "/profile2?fields=accountId,onlineId,currentOnlineId" in
  let response := UserAccountResponse.zero in
  x <- requestAndUnmarshal P unmarshal c ctx url response ;;
  let '(err, response, c) := x in
  match err with
  | Some err => ret (Fail err, c)
  | None => ret (Ok response, c)
  end.

(** [GetUserProfile] *)
Definition GetUserProfile (unmarshal : Unmarshaler UserProfileResponse.t)
    (c : ClientAPI) (ctx : Context) (accountId : string)
  : M (result UserProfileResponse.t * ClientAPI) :=
  let url :=
    "https://m.np.playstation.com/api/userProfile/v1/internal/users/"
    ++ accountId ++ "/profiles" in
  let response := UserProfileResponse.zero in
  x <- requestAndUnmarshal P unmarshal c ctx url response ;;
  let '(err, response, c) := x in
  match err with
  | Some err => ret (Fail err, c)
  | None => ret (Ok response, c)
  end.

(** [GetUserGames] *)
Definition GetUserGames {any : Type} (unmarshal : Unmarshaler (UserGamesResponse.t any))
    (c : ClientAPI) (ctx : Context) (accountId : string)
  : M (result (UserGamesResponse.t any) * ClientAPI) :=
  let url :=
    "https://m.np.playstation.com/api/gamelist/v2/users/"
    ++ accountId ++ "/titles?limit=10" in
  let response := UserGamesResponse.zero any in
  x <- requestAndUnmarshal P unmarshal c ctx url response ;;
  let '(err, response, c) := x in
  match err with
  | Some err => ret (Fail err, c)
  | None => ret (Ok response, c)
  end.

End Queries.

(** ** Error chains ([errors], [fmt.Errorf])

    [fmt.Errorf] with the verb [%w] gives an error that unwraps to its
    operand; with [%v] or [%s] it gives a plain error. *)
Definition Unwrap (e : error) : option error :=
  match e with
  | ErrAuthRequest e
  | ErrCreatingRequest e
  | ErrSendingRequest e
  | ErrRequestCancelled e
  | ErrParsingLocation e
  | ErrCreatingTokenRequest e
  | ErrSendingTokenRequest e
  | ErrTokenRequestCancelled e
  | ErrReadingBody e
  | ErrParsingToken e
  | ErrRefreshingTokens e
  | ErrUnmarshal e _ => Some e
  | _ => None
  end.

Definition error_eq_dec (a b : error) : {a = b} + {a <> b}.
Proof.
  decide equality; first [apply String.string_dec | apply Z.eq_dec].
Defined.

(** [errors.Is(err, target)]: [target] is [err] or an error down its
    chain. Errors are compared as values; Go compares the errors made
    by [errors.New] and [fmt.Errorf] by identity, so that what is not
    found here is not found there, and an error is found in its own
    chain in both. *)
Fixpoint errors_Is (err target : error) : bool :=
  if error_eq_dec err target then true
  else
    match err with
    | ErrAuthRequest e
    | ErrCreatingRequest e
    | ErrSendingRequest e
    | ErrRequestCancelled e
    | ErrParsingLocation e
    | ErrCreatingTokenRequest e
    | ErrSendingTokenRequest e
    | ErrTokenRequestCancelled e
    | ErrReadingBody e
    | ErrParsingToken e
    | ErrRefreshingTokens e
    | ErrUnmarshal e _ => errors_Is e target
    | _ => false
    end.

(** ** More observations on traces *)

(** The requests sent, in order. *)
Fixpoint requestsOf (evs : list Event) : list Request :=
  match evs with
  | [] => []
  | EvDo req _ :: evs' => req :: requestsOf evs'
  | _ :: evs' => requestsOf evs'
  end.

(** The protected GET, as [request] builds it for a URL, an access
    token and a language. *)
Definition resourceRequest (url accessToken : string) (lang : Language) : Request :=
  mkRequest "GET" url
    ([("Authorization", ("Bearer " ++ accessToken)%string); ("Accept", "application/json")]
     ++ (if String.eqb lang "" then [] else [("Accept-Language", lang)]))%list
    "".

(** The clock never goes back from one reading to the next. *)
Definition monotone (P : Platform) : Prop :=
  forall (tr : Trace), time_Now P tr <= time_Now P (tr ++ [EvNow (time_Now P tr)])%list.

(** The events hold an answer to a protected GET of the URL, with
    status 200, 401 or 403, whose body decodes from [zero] to [v]. *)
Definition answered {V : Type} (unmarshal : Unmarshaler V) (zero v : V)
    (url : string) (evs : list Event) : Prop :=
  exists req resp body,
    In (EvDo req (Ok resp)) evs
    /\ isBearer req = true
    /\ Method req = "GET"
    /\ URL req = url
    /\ (StatusCode resp = 200 \/ StatusCode resp = 401 \/ StatusCode resp = 403)
    /\ Body resp = Ok body
    /\ unmarshal body zero = (None, v).

(** ** More concrete material *)
Module Scenario.

(** A server whose token response has no access token. *)
Definition emptyToken : Platform :=
  {| time_Now := Fixture.clock;
     http_Do := Fixture.network Fixture.found (Fixture.respond 200 "tokens")
                  (Fixture.respond 200 "{}");
     url_URL := string;
     url_Parse := Fixture.parse;
     url_Query_Get := Fixture.queryGet;
     url_Values_Encode := Fixture.encode;
     json_Unmarshal_Tokens :=
       fun _ t => (None, mkTokens "" "B" 3600 5184000
                                  (AccessExpiresTime t) (RefreshExpiresTime t));
     json_Unmarshal_RequestError := Fixture.unmarshalRequestError;
     Languages_0 := "en";
     Regions_0 := "us";
     IsContain_Languages := fun l => String.eqb l "en" || String.eqb l "fr";
     IsContain_Regions := fun r => String.eqb r "us" || String.eqb r "fr" |}.

(** A decoder of account responses: the body is the online id; a body
    "wrong shape" fails after the target was written to. *)
Definition unmarshalAccount : Unmarshaler UserAccountResponse.t :=
  fun body v =>
    if String.eqb body "wrong shape"
    then (Some (ErrExternal "cannot unmarshal"),
          UserAccountResponse.mk (UserAccountResponse.mkProfile "partial" "" ""))
    else (None, UserAccountResponse.mk (UserAccountResponse.mkProfile body "42" body)).

(** A context that is done from the fourth event on: alive at the
    check after the authorization step, done at the one after the token
    step. *)
Definition late : Context :=
  fun tr => if (4 <=? List.length tr)%nat then Some (ErrExternal "context canceled")
            else None.

(** The same client in another region. *)
Definition clientFR : Client := mkClient (Some 1%positive) "en" "fr".

End Scenario.

(** * Properties *)

Local Open Scope list_scope.

(** ** Credential validator *)

Lemma eqb_empty (s : string) : String.eqb s "" = true <-> s = "".
Proof. apply String.eqb_eq. Qed.

Lemma length_empty (s : string) : s = "" -> String.length s <> 64%nat.
Proof. intros ->. discriminate. Qed.

(** C7. [validateNPSSO] is a function of the credential alone, defined
    on every string: it answers [ErrNPSSOEmpty] exactly on the empty
    string, [ErrNPSSOLength] exactly on the non-empty strings whose
    length is not 64, and nil exactly on the strings of length 64; it
    has no other answer. It takes no world and returns none; and
    [Authenticate], which calls it first, returns its error with the
    world untouched: nothing was sent. (The length is Go's [len]: the
    characters of the credential are its bytes.) *)
Theorem validateNPSSO_spec (npsso : string) :
  (validateNPSSO npsso = Some ErrNPSSOEmpty <-> npsso = "")
  /\ (validateNPSSO npsso = Some ErrNPSSOLength
      <-> npsso <> "" /\ String.length npsso <> 64%nat)
  /\ (validateNPSSO npsso = None <-> String.length npsso = 64%nat)
  /\ (validateNPSSO npsso = Some ErrNPSSOEmpty
      \/ validateNPSSO npsso = Some ErrNPSSOLength
      \/ validateNPSSO npsso = None)
  /\ (forall (P : Platform) (c : Client) (ctx : Context) (w : World) (e : error),
         validateNPSSO npsso = Some e ->
         Authenticate P c ctx npsso w = Some (Fail (ErrInvalidNPSSO e), w)).
Proof.
  assert (Hauth : forall (P : Platform) (c : Client) (ctx : Context) (w : World) e,
             validateNPSSO npsso = Some e ->
             Authenticate P c ctx npsso w = Some (Fail (ErrInvalidNPSSO e), w)).
  { intros P c ctx w e He. unfold Authenticate. rewrite He. reflexivity. }
  revert Hauth. unfold validateNPSSO.
  destruct (String.eqb npsso "") eqn:Hempty.
  - apply eqb_empty in Hempty. pose proof (length_empty _ Hempty) as Hlen.
    intros Hauth. split_and!; try exact Hauth; try tauto;
      split; try tauto; try congruence; try discriminate.
  - assert (Hne : npsso <> "") by (intros Heq; apply eqb_empty in Heq; congruence).
    destruct (Nat.eqb (String.length npsso) 64) eqn:Hlen; simpl.
    + apply Nat.eqb_eq in Hlen.
      intros Hauth. split_and!; try exact Hauth; try tauto;
        split; try tauto; try congruence; try discriminate.
    + apply Nat.eqb_neq in Hlen.
      intros Hauth. split_and!; try exact Hauth; try tauto;
        split; try tauto; try congruence; try discriminate.
Qed.

Example validateNPSSO_empty : validateNPSSO "" = Some ErrNPSSOEmpty.
Proof. reflexivity. Qed.

Example validateNPSSO_short : validateNPSSO "abc" = Some ErrNPSSOLength.
Proof. reflexivity. Qed.

Example validateNPSSO_64 : validateNPSSO Fixture.npsso = None.
Proof. reflexivity. Qed.

(** ** The monad *)

Lemma bind_Some {A B : Type} (m : M A) (k : A -> M B) (w w' : World) (b : B) :
  bind m k w = Some (b, w') <->
  exists a w1, m w = Some (a, w1) /\ k a w1 = Some (b, w').
Proof.
  unfold bind. split.
  - destruct (m w) as [[a w1]|]; [|discriminate].
    intros H. exists a, w1. split; [reflexivity | exact H].
  - intros (a & w1 & Hm & Hk). rewrite Hm. exact Hk.
Qed.

(** Case analysis on a run [H : f ... w = Some (r, w')] of the program:
    every test of the source is decided in turn. *)
Ltac run_cases H :=
  repeat (match type of H with
          | context [match ?x with _ => _ end] =>
              lazymatch x with
              | context [match _ with _ => _ end] => fail
              | _ => destruct x eqn:?
              end
          end;
          cbv beta iota zeta in H; cbn [heap trace] in H;
          try discriminate H).

Ltac trace_norm :=
  cbn [heap trace]; repeat rewrite <- app_assoc; cbn [app].

Section Exchange.

Context (P : Platform).

Lemma clientDo_run (c : Client) (req : Request) (w : World) (l : loc) (hc : HttpClient) :
  httpClient c = Some l -> heap w !! l = Some hc ->
  clientDo P c req w
  = Some (http_Do P hc (trace w) req,
          mkWorld (heap w) (trace w ++ [EvDo req (http_Do P hc (trace w) req)])).
Proof.
  intros Hc Hl. unfold clientDo, bind, deref. rewrite Hc, Hl. reflexivity.
Qed.

(** What a successful exchange looks like: both round trips answered,
    the context alive after each, a redirect carrying a v3 code, a 200
    token response that decodes, and two readings of the clock. *)
Lemma authRequest_Ok_inv (c : Client) (ctx : Context) (npsso : string)
    (w w' : World) (t : Tokens) :
  authRequest P c ctx npsso w = Some (Ok t, w') ->
  exists resp locationURL tokenResp body decoded t1 t2,
    let code := url_Query_Get P locationURL "code" in
    let tr := (trace w ++ [EvAuthRequest npsso;
                           EvDo (authorizeRequest P npsso) (Ok resp);
                           EvCtxErr None;
                           EvDo (tokenRequest P code) (Ok tokenResp);
                           EvCtxErr None])%list in
    heap w' = heap w
    /\ trace w' = (tr ++ [EvNow t1; EvNow t2])%list
    /\ StatusCode resp = http_StatusFound
    /\ url_Parse P (Header_Get (RespHeader resp) "Location") = Ok locationURL
    /\ String.prefix "v3" code = true
    /\ StatusCode tokenResp = http_StatusOK
    /\ Body tokenResp = Ok body
    /\ json_Unmarshal_Tokens P body zeroTokens = (None, decoded)
    /\ t1 = time_Now P tr
    /\ t2 = time_Now P (tr ++ [EvNow t1])
    /\ t = mkTokens (AccessToken decoded) (RefreshToken decoded)
                    (AccessExpires decoded) (RefreshExpires decoded)
                    (t1 + wrap64 (1000000000 * AccessExpires decoded))
                    (t2 + wrap64 (1000000000 * RefreshExpires decoded)).
Proof.
  intros H.
  unfold authRequest, tokenStep, setExpirationTimes, clientDo, deref,
    http_NewRequestWithContext, bind, emit, ctxErr, now, ret in H.
  cbn [heap trace] in H.
  run_cases H.
  injection H as <- <-.
  repeat match goal with
         | E : Ok _ = Ok _ |- _ => injection E as <-
         | E : negb _ = false |- _ => apply negb_false_iff in E
         | E : (_ =? _)%Z = true |- _ => apply Z.eqb_eq in E
         end.
  do 7 eexists. cbv zeta. trace_norm.
  repeat split; try eassumption; try reflexivity.
Qed.

(** Every run of the exchange leaves its entry mark, then only events
    of the exchange: no protected GET, no second entry. The heap is not
    written. *)
Lemma authRequest_events (c : Client) (ctx : Context) (npsso : string)
    (w w' : World) (r : result Tokens) :
  authRequest P c ctx npsso w = Some (r, w') ->
  heap w' = heap w
  /\ exists evs, trace w' = trace w ++ EvAuthRequest npsso :: evs
                /\ forallb isExchangeEvent evs = true.
Proof.
  intros H.
  unfold authRequest, tokenStep, setExpirationTimes, clientDo, deref,
    http_NewRequestWithContext, bind, emit, ctxErr, now, ret in H.
  cbn [heap trace] in H.
  run_cases H; injection H as <- <-;
    repeat match goal with
           | E : Ok _ = Ok _ |- _ => injection E as <-
           end;
    (split; [reflexivity |]); trace_norm;
    (eexists; split; [reflexivity | reflexivity]).
Qed.

Section Answered.

Context (c : Client) (ctx : Context) (npsso : string) (w : World).
Context (l : loc) (hc : HttpClient).
Hypothesis Hclient : httpClient c = Some l.
Hypothesis Hheap : heap w !! l = Some hc.

(** The exchange always returns: nothing in it can panic once the
    client's [http.Client] is there. *)
Lemma authRequest_returns :
  exists r w', authRequest P c ctx npsso w = Some (r, w').
Proof.
  unfold authRequest, tokenStep, setExpirationTimes, clientDo, deref,
    http_NewRequestWithContext, bind, emit, ctxErr, now, ret.
  rewrite Hclient.
  repeat (cbv beta iota zeta; cbn [heap trace]; try rewrite Hheap;
          match goal with
          | |- context [match ?x with _ => _ end] =>
              lazymatch x with
              | context [match _ with _ => _ end] => fail
              | _ => destruct x eqn:?
              end
          end);
    cbv beta iota zeta; eauto.
Qed.

Lemma authorizeRequest_built :
  Request_Header_Add (mkRequest "GET" (authURL P) [] "") "Cookie" ("npsso=" ++ npsso)%string
  = authorizeRequest P npsso.
Proof. reflexivity. Qed.

Lemma tokenRequest_built (code : string) :
  Request_Header_Set
    (Request_Header_Set
       (mkRequest "POST" tokenURL [] (url_Values_Encode P (tokenData code)))
       "Content-Type" "application/x-www-form-urlencoded")
    "Authorization" basicAuthorization
  = tokenRequest P code.
Proof. reflexivity. Qed.

(** The exchange, once the authorization endpoint has answered [resp]:
    the tests of the first step in their order. *)
Lemma authRequest_answered (resp : Response) :
  npsso <> ""%string ->
  (exists u, url_Parse P (authURL P) = Ok u) ->
  http_Do P hc (trace w ++ [EvAuthRequest npsso]) (authorizeRequest P npsso) = Ok resp ->
  let tr2 := trace w ++ [EvAuthRequest npsso; EvDo (authorizeRequest P npsso) (Ok resp)] in
  let w3 := mkWorld (heap w) (tr2 ++ [EvCtxErr (ctx tr2)]) in
  authRequest P c ctx npsso w =
  match ctx tr2 with
  | Some e => Some (Fail (ErrRequestCancelled e), w3)
  | None =>
    if negb (StatusCode resp =? http_StatusFound) then Some (Fail ErrCheckNPSSO, w3)
    else
      match url_Parse P (Header_Get (RespHeader resp) "Location") with
      | Fail e => Some (Fail (ErrParsingLocation e), w3)
      | Ok u =>
        if negb (String.prefix "v3" (url_Query_Get P u "code"))
        then Some (Fail ErrCheckNPSSO, w3)
        else tokenStep P c ctx (url_Query_Get P u "code") w3
      end
  end.
Proof.
  intros Hnpsso [u0 Hurl] Hdo tr2 w3.
  apply String.eqb_neq in Hnpsso.
  unfold authRequest, http_NewRequestWithContext.
  rewrite Hnpsso, Hurl, authorizeRequest_built.
  unfold bind at 1. unfold emit. unfold bind at 1.
  erewrite clientDo_run; [| exact Hclient | exact Hheap]. cbn [heap trace].
  rewrite Hdo. unfold bind, ctxErr, ret. cbn [heap trace].
  subst w3 tr2. trace_norm.
  destruct (ctx _); [reflexivity |].
  destruct (StatusCode resp =? http_StatusFound); cbn [negb]; [| reflexivity].
  destruct (url_Parse P (Header_Get (RespHeader resp) "Location")); [| reflexivity].
  destruct (String.prefix "v3" _); reflexivity.
Qed.

(** The token step, once the token endpoint has answered [tokenResp]:
    the tests of the second step in their order. *)
Lemma tokenStep_answered (code : string) (tokenResp : Response) :
  (exists u, url_Parse P tokenURL = Ok u) ->
  http_Do P hc (trace w) (tokenRequest P code) = Ok tokenResp ->
  let tr4 := trace w ++ [EvDo (tokenRequest P code) (Ok tokenResp)] in
  let w5 := mkWorld (heap w) (tr4 ++ [EvCtxErr (ctx tr4)]) in
  tokenStep P c ctx code w =
  match ctx tr4 with
  | Some e => Some (Fail (ErrTokenRequestCancelled e), w5)
  | None =>
    if negb (StatusCode tokenResp =? http_StatusOK) then Some (Fail ErrObtainToken, w5)
    else
      match Body tokenResp with
      | Fail e => Some (Fail (ErrReadingBody e), w5)
      | Ok body =>
        match json_Unmarshal_Tokens P body zeroTokens with
        | (Some e, _) => Some (Fail (ErrParsingToken e), w5)
        | (None, decoded) => setExpirationTimes P decoded w5
        end
      end
  end.
Proof.
  intros [u0 Hurl] Hdo tr4 w5.
  unfold tokenStep, http_NewRequestWithContext.
  rewrite Hurl, tokenRequest_built.
  unfold bind at 1.
  erewrite clientDo_run; [| exact Hclient | exact Hheap].
  rewrite Hdo. unfold bind, ctxErr, ret. cbn [heap trace].
  subst w5 tr4.
  destruct (ctx _); [reflexivity |].
  destruct (StatusCode tokenResp =? http_StatusOK); cbn [negb]; [| reflexivity].
  destruct (Body tokenResp) as [body | e]; [| reflexivity].
  destruct (json_Unmarshal_Tokens P body zeroTokens) as [[e|] decoded]; reflexivity.
Qed.

(** The last part of the exchange reads the clock twice and returns. *)
Lemma setExpirationTimes_run (decoded : Tokens) :
  let t1 := time_Now P (trace w) in
  let t2 := time_Now P (trace w ++ [EvNow t1]) in
  setExpirationTimes P decoded w
  = Some (Ok (mkTokens (AccessToken decoded) (RefreshToken decoded)
                       (AccessExpires decoded) (RefreshExpires decoded)
                       (t1 + wrap64 (1000000000 * AccessExpires decoded))
                       (t2 + wrap64 (1000000000 * RefreshExpires decoded))),
          mkWorld (heap w) (trace w ++ [EvNow t1; EvNow t2])).
Proof.
  unfold setExpirationTimes, bind, now, ret. trace_norm. reflexivity.
Qed.

End Answered.

End Exchange.

(** ** Token exchange: outcomes *)

(** C2 (amended). Take a run of the exchange with a non-empty
    credential in which the authorization endpoint answered [resp].
    If the context reports an error at the check that follows the step,
    the exchange fails with the cancelled error, whatever the status.
    Otherwise: a status other than 302, or a Location that parses and
    whose [code] does not begin with "v3", fails with "error: check
    npsso", and the trace ends right there, without a token request; a
    Location that does not parse fails with the location error. When
    the code is there and the token endpoint answered [tokenResp], the
    same holds for the second step: a context error first, then a
    status other than 200 is "unable to obtain Authentication Token", a
    body that cannot be read is the read error, a body that does not
    decode is the token-parse error, and a body that decodes gives
    tokens. Conversely tokens come only out of a 200 token response
    that was read and decoded. *)
Theorem authRequest_outcomes (P : Platform) (c : Client) (ctx : Context)
    (npsso : string) (w : World) (l : loc) (hc : HttpClient) (resp : Response) :
  npsso <> ""%string ->
  (exists u, url_Parse P (authURL P) = Ok u) ->
  (exists u, url_Parse P tokenURL = Ok u) ->
  httpClient c = Some l ->
  heap w !! l = Some hc ->
  http_Do P hc (trace w ++ [EvAuthRequest npsso]) (authorizeRequest P npsso) = Ok resp ->
  let location := Header_Get (RespHeader resp) "Location" in
  let tr2 := trace w ++ [EvAuthRequest npsso; EvDo (authorizeRequest P npsso) (Ok resp)] in
  let w3 := mkWorld (heap w) (tr2 ++ [EvCtxErr (ctx tr2)]) in
  let exchange := authRequest P c ctx npsso w in
  (forall e, ctx tr2 = Some e ->
     exchange = Some (Fail (ErrRequestCancelled e), w3))
  /\ (ctx tr2 = None -> StatusCode resp <> 302 ->
      exchange = Some (Fail ErrCheckNPSSO, w3))
  /\ (ctx tr2 = None -> StatusCode resp = 302 ->
      forall e, url_Parse P location = Fail e ->
      exchange = Some (Fail (ErrParsingLocation e), w3))
  /\ (ctx tr2 = None -> StatusCode resp = 302 ->
      forall u, url_Parse P location = Ok u ->
      String.prefix "v3" (url_Query_Get P u "code") = false ->
      exchange = Some (Fail ErrCheckNPSSO, w3))
  /\ (ctx tr2 = None -> StatusCode resp = 302 ->
      forall u tokenResp, url_Parse P location = Ok u ->
      let code := url_Query_Get P u "code" in
      String.prefix "v3" code = true ->
      http_Do P hc (trace w3) (tokenRequest P code) = Ok tokenResp ->
      let tr4 := trace w3 ++ [EvDo (tokenRequest P code) (Ok tokenResp)] in
      let w5 := mkWorld (heap w) (tr4 ++ [EvCtxErr (ctx tr4)]) in
      (forall e, ctx tr4 = Some e ->
         exchange = Some (Fail (ErrTokenRequestCancelled e), w5))
      /\ (ctx tr4 = None -> StatusCode tokenResp <> 200 ->
          exchange = Some (Fail ErrObtainToken, w5))
      /\ (ctx tr4 = None -> StatusCode tokenResp = 200 ->
          forall e, Body tokenResp = Fail e ->
          exchange = Some (Fail (ErrReadingBody e), w5))
      /\ (ctx tr4 = None -> StatusCode tokenResp = 200 ->
          forall body e x, Body tokenResp = Ok body ->
          json_Unmarshal_Tokens P body zeroTokens = (Some e, x) ->
          exchange = Some (Fail (ErrParsingToken e), w5))
      /\ (ctx tr4 = None -> StatusCode tokenResp = 200 ->
          forall body decoded, Body tokenResp = Ok body ->
          json_Unmarshal_Tokens P body zeroTokens = (None, decoded) ->
          exists t w', exchange = Some (Ok t, w')
                       /\ AccessToken t = AccessToken decoded
                       /\ RefreshToken t = RefreshToken decoded))
  /\ (forall t w', exchange = Some (Ok t, w') ->
      exists u tokenResp body decoded,
        (exists evs, trace w' = trace w ++ evs
           /\ In (EvDo (tokenRequest P (url_Query_Get P u "code")) (Ok tokenResp)) evs)
        /\ StatusCode tokenResp = 200
        /\ Body tokenResp = Ok body
        /\ json_Unmarshal_Tokens P body zeroTokens = (None, decoded)
        /\ AccessToken t = AccessToken decoded
        /\ RefreshToken t = RefreshToken decoded).
Proof.
  intros Hnpsso HauthURL HtokenURL Hclient Hheap Hdo location tr2 w3 exchange.
  pose proof (authRequest_answered P c ctx npsso w l hc Hclient Hheap resp
                Hnpsso HauthURL Hdo) as Heq.
  cbv zeta in Heq. fold tr2 in Heq. fold w3 in Heq. fold location in Heq.
  fold exchange in Heq.
  assert (Hnot : forall s k, s <> k -> negb (s =? k) = true)
    by (intros s k Hs; apply negb_true_iff, Z.eqb_neq, Hs).
  assert (Hyes : forall s k, s = k -> negb (s =? k) = false)
    by (intros s k Hs; apply negb_false_iff, Z.eqb_eq, Hs).
  split_and!.
  - intros e Hctx. rewrite Heq, Hctx. reflexivity.
  - intros Hctx Hst. rewrite Heq, Hctx.
    unfold http_StatusFound. rewrite (Hnot _ _ Hst). reflexivity.
  - intros Hctx Hst e Hparse. rewrite Heq, Hctx.
    unfold http_StatusFound. rewrite (Hyes _ _ Hst), Hparse. reflexivity.
  - intros Hctx Hst u Hparse Hpre. rewrite Heq, Hctx.
    unfold http_StatusFound. rewrite (Hyes _ _ Hst), Hparse, Hpre. reflexivity.
  - intros Hctx Hst u tokenResp Hparse code Hpre Htok tr4 w5.
    assert (Hexch : exchange = tokenStep P c ctx code w3).
    { rewrite Heq, Hctx. unfold http_StatusFound.
      rewrite (Hyes _ _ Hst), Hparse. fold code. rewrite Hpre. reflexivity. }
    pose proof (tokenStep_answered P c ctx w3 l hc Hclient Hheap code tokenResp
                  HtokenURL Htok) as Hstep.
    cbv zeta in Hstep. fold tr4 in Hstep.
    change (mkWorld (heap w3) (tr4 ++ [EvCtxErr (ctx tr4)])) with w5 in Hstep.
    rewrite <- Hexch in Hstep. clear Hexch Heq.
    split_and!.
    + intros e Hc. rewrite Hstep, Hc. reflexivity.
    + intros Hc Hs. rewrite Hstep, Hc. unfold http_StatusOK.
      rewrite (Hnot _ _ Hs). reflexivity.
    + intros Hc Hs e Hb. rewrite Hstep, Hc. unfold http_StatusOK.
      rewrite (Hyes _ _ Hs), Hb. reflexivity.
    + intros Hc Hs body e x Hb Hj. rewrite Hstep, Hc. unfold http_StatusOK.
      rewrite (Hyes _ _ Hs), Hb, Hj. reflexivity.
    + intros Hc Hs body decoded Hb Hj. rewrite Hstep, Hc. unfold http_StatusOK.
      rewrite (Hyes _ _ Hs), Hb, Hj, setExpirationTimes_run.
      do 2 eexists. repeat split.
  - intros t w' Hrun. subst exchange.
    destruct (authRequest_Ok_inv P c ctx npsso w w' t Hrun)
      as (resp' & u & tokenResp & body & decoded & t1 & t2 & H).
    cbv zeta in H.
    destruct H as (_ & Htr & _ & _ & _ & Hst & Hb & Hj & _ & _ & Ht).
    exists u, tokenResp, body, decoded.
    repeat split; try assumption.
    + eexists. split; [rewrite Htr, <- app_assoc; reflexivity |]. cbn. tauto.
    + rewrite Ht. reflexivity.
    + rewrite Ht. reflexivity.
Qed.

Lemma authRequest_outcomes_witness :
  exists t w',
    authRequest (Fixture.good (Fixture.respond 200 "{}")) Fixture.client
      Fixture.background Fixture.npsso Fixture.w0 = Some (Ok t, w')
    /\ AccessToken t = "A"%string.
Proof.
  pose proof (authRequest_outcomes (Fixture.good (Fixture.respond 200 "{}"))
                Fixture.client Fixture.background Fixture.npsso Fixture.w0
                1%positive Fixture.defaultClient
                (mkResponse 302
                   [("Location",
                     "com.scee.psxandroid.scecompcall://redirect?code=v3abc&cid=1"%string)]
                   (Ok ""%string) false)) as H.
  destruct H as (_ & _ & _ & _ & H & _).
  - discriminate.
  - eexists. reflexivity.
  - eexists. reflexivity.
  - reflexivity.
  - reflexivity.
  - reflexivity.
  - destruct (H eq_refl eq_refl "com.scee.psxandroid.scecompcall://redirect?code=v3abc&cid=1"%string
                (mkResponse 200 [] (Ok "tokens"%string) false)
                eq_refl eq_refl eq_refl) as (_ & _ & _ & _ & H5).
    destruct (H5 eq_refl eq_refl "tokens"%string
                (mkTokens "A" "B" 3600 5184000 0 0) eq_refl eq_refl)
      as (t & w' & Hrun & Ha & _).
    exists t, w'. split; [exact Hrun | exact Ha].
Defined.

(** The exchange against a server that answers as it should: the code
    v3abc is taken from the redirect and the token step gives tokens
    that expire 3600 s and 5184000 s after the two readings of the
    clock. *)
Example authRequest_run :
  option_map fst
    (authRequest (Fixture.good (Fixture.respond 200 "{}")) Fixture.client
       Fixture.background Fixture.npsso Fixture.w0)
  = Some (Ok (mkTokens "A" "B" 3600 5184000 1700003600000000005 1705184000000000006)).
Proof. vm_compute. reflexivity. Qed.

Example queryGet_code :
  Fixture.queryGet "com.scee.psxandroid.scecompcall://redirect?code=v3abc&cid=1" "code"
  = "v3abc"%string.
Proof. reflexivity. Qed.

(** C2 as stated fails: with a status 500 from the authorization
    endpoint and a context that is done, the exchange fails with the
    cancelled error, not with "error: check npsso". *)
Lemma authRequest_status_counterexample :
  ~ (forall (P : Platform) (c : Client) (ctx : Context) (npsso : string)
            (w : World) (l : loc) (hc : HttpClient) (resp : Response),
        npsso <> ""%string ->
        (exists u, url_Parse P (authURL P) = Ok u) ->
        httpClient c = Some l ->
        heap w !! l = Some hc ->
        http_Do P hc (trace w ++ [EvAuthRequest npsso]) (authorizeRequest P npsso)
        = Ok resp ->
        StatusCode resp <> 302 ->
        exists w', authRequest P c ctx npsso w = Some (Fail ErrCheckNPSSO, w')).
Proof.
  intros H.
  destruct (H (Fixture.platform (Fixture.respond 500 "") (Fixture.respond 200 "tokens")
                 (Fixture.respond 200 "{}") 3600 5184000)
              Fixture.client Fixture.cancelled Fixture.npsso Fixture.w0
              1%positive Fixture.defaultClient
              (mkResponse 500 [] (Ok ""%string) false))
    as [w' Hrun].
  - discriminate.
  - eexists. reflexivity.
  - reflexivity.
  - reflexivity.
  - reflexivity.
  - discriminate.
  - vm_compute in Hrun. discriminate Hrun.
Qed.

Example authRequest_cancelled_run :
  option_map fst
    (authRequest (Fixture.platform (Fixture.respond 500 "") (Fixture.respond 200 "tokens")
                    (Fixture.respond 200 "{}") 3600 5184000)
       Fixture.client Fixture.cancelled Fixture.npsso Fixture.w0)
  = Some (Fail (ErrRequestCancelled (ErrExternal "context canceled"))).
Proof. vm_compute. reflexivity. Qed.

(** ** Token exchange: expiry instants *)

Lemma wrap64_small (z : Z) : - 2 ^ 63 <= z < 2 ^ 63 -> wrap64 z = z.
Proof. intros H. unfold wrap64. rewrite Z.mod_small; lia. Qed.

Lemma seconds_exact (n : Z) :
  -9223372036 <= n <= 9223372036 ->
  Duration_mul time_Second n = n * 1000000000.
Proof.
  intros H. unfold Duration_mul, time_Second. rewrite wrap64_small; lia.
Qed.

(** The lifetime that no longer fits: one second more and the product
    wraps to a negative duration. *)
Example seconds_wrap :
  Duration_mul time_Second 9223372037 = -9223372036709551616.
Proof. reflexivity. Qed.

(** C3 (amended). A successful exchange ends with two readings [t1],
    [t2] of the clock, one right after the other. When the lifetimes
    the server returned are at most 9223372036 seconds in absolute value
    (so that their count of nanoseconds fits an int64), the access
    expiry is [t1] plus [expires_in] seconds and the refresh expiry is
    [t2] plus [refresh_token_expires_in] seconds; the lifetimes kept in
    the Token Pair are the decoded ones. *)
Theorem authRequest_expiry (P : Platform) (c : Client) (ctx : Context)
    (npsso : string) (w w' : World) (t : Tokens) :
  authRequest P c ctx npsso w = Some (Ok t, w') ->
  -9223372036 <= AccessExpires t <= 9223372036 ->
  -9223372036 <= RefreshExpires t <= 9223372036 ->
  exists tr t1 t2 body decoded,
    trace w' = tr ++ [EvNow t1; EvNow t2]
    /\ t1 = time_Now P tr
    /\ t2 = time_Now P (tr ++ [EvNow t1])
    /\ json_Unmarshal_Tokens P body zeroTokens = (None, decoded)
    /\ AccessExpires t = AccessExpires decoded
    /\ RefreshExpires t = RefreshExpires decoded
    /\ AccessExpiresTime t = t1 + AccessExpires t * 1000000000
    /\ RefreshExpiresTime t = t2 + RefreshExpires t * 1000000000.
Proof.
  intros Hrun Ha Hr.
  destruct (authRequest_Ok_inv P c ctx npsso w w' t Hrun)
    as (resp & u & tokenResp & body & decoded & t1 & t2 & H).
  cbv zeta in H.
  destruct H as (_ & Htr & _ & _ & _ & _ & _ & Hj & Ht1 & Ht2 & Ht).
  eexists _, t1, t2, body, decoded.
  split; [exact Htr |].
  split; [exact Ht1 |].
  split; [exact Ht2 |].
  split; [exact Hj |].
  subst t. cbn [AccessExpires RefreshExpires AccessExpiresTime RefreshExpiresTime] in *.
  pose proof (seconds_exact _ Ha) as Ea. pose proof (seconds_exact _ Hr) as Er.
  unfold Duration_mul, time_Second in Ea, Er.
  rewrite Ea, Er. repeat split.
Qed.

Lemma authRequest_expiry_witness :
  exists t w' tr t1 t2,
    authRequest (Fixture.good (Fixture.respond 200 "{}")) Fixture.client
      Fixture.background Fixture.npsso Fixture.w0 = Some (Ok t, w')
    /\ AccessExpires t = 3600 /\ RefreshExpires t = 5184000
    /\ trace w' = tr ++ [EvNow t1; EvNow t2]
    /\ AccessExpiresTime t = t1 + AccessExpires t * 1000000000
    /\ RefreshExpiresTime t = t2 + RefreshExpires t * 1000000000.
Proof.
  eassert (Hrun : authRequest (Fixture.good (Fixture.respond 200 "{}")) Fixture.client
                    Fixture.background Fixture.npsso Fixture.w0
                  = Some (Ok _, _)) by (vm_compute; reflexivity).
  destruct (authRequest_expiry _ _ _ _ _ _ _ Hrun)
    as (tr & t1 & t2 & body & decoded & Htr & _ & _ & _ & _ & _ & Ha & Hr).
  - cbn. lia.
  - cbn. lia.
  - eexists _, _, tr, t1, t2.
    split; [exact Hrun |]. split; [reflexivity |]. split; [reflexivity |].
    split; [exact Htr |]. split; [exact Ha | exact Hr].
Defined.

(** C3 as stated fails: for the lifetime 9223372037 the access expiry
    is not that many seconds after any reading of the clock made during
    the exchange; it lies before all of them. *)
Lemma authRequest_expiry_counterexample :
  ~ (forall (P : Platform) (c : Client) (ctx : Context) (npsso : string)
            (w w' : World) (t : Tokens),
        authRequest P c ctx npsso w = Some (Ok t, w') ->
        exists T, In (EvNow T) (trace w')
                  /\ AccessExpiresTime t = T + AccessExpires t * 1000000000).
Proof.
  intros H.
  eassert (Hrun : authRequest
                    (Fixture.platform Fixture.found (Fixture.respond 200 "tokens")
                       (Fixture.respond 200 "{}") 9223372037 5184000)
                    Fixture.client Fixture.background Fixture.npsso Fixture.w0
                  = Some (Ok _, _)) by (vm_compute; reflexivity).
  destruct (H _ _ _ _ _ _ _ Hrun) as (T & Hin & Heq).
  cbn in Hin, Heq.
  destruct Hin as [E|[E|[E|[E|[E|[E|[E|[]]]]]]]]; try discriminate E;
    injection E as <-; discriminate Heq.
Qed.

(** C8 (amended). When the access lifetime the server returned is
    between 0 and 9223372036 seconds, the access expiry of the Token
    Pair is not before the reading of the clock it was computed from,
    the first of the two readings that end a successful exchange. *)
Theorem authRequest_expiry_lower_bound (P : Platform) (c : Client) (ctx : Context)
    (npsso : string) (w w' : World) (t : Tokens) :
  authRequest P c ctx npsso w = Some (Ok t, w') ->
  0 <= AccessExpires t <= 9223372036 ->
  exists tr t1 t2,
    trace w' = tr ++ [EvNow t1; EvNow t2]
    /\ t1 = time_Now P tr
    /\ t1 <= AccessExpiresTime t.
Proof.
  intros Hrun Ha.
  destruct (authRequest_Ok_inv P c ctx npsso w w' t Hrun)
    as (resp & u & tokenResp & body & decoded & t1 & t2 & H).
  cbv zeta in H.
  destruct H as (_ & Htr & _ & _ & _ & _ & _ & _ & Ht1 & _ & Ht).
  eexists _, t1, t2.
  split; [exact Htr |].
  split; [exact Ht1 |].
  subst t. cbn [AccessExpires AccessExpiresTime] in *.
  assert (E : Duration_mul time_Second (AccessExpires decoded)
              = AccessExpires decoded * 1000000000)
    by (apply seconds_exact; lia).
  unfold Duration_mul, time_Second in E. rewrite E. lia.
Qed.

Lemma authRequest_expiry_lower_bound_witness :
  exists t w' tr t1 t2,
    authRequest (Fixture.good (Fixture.respond 200 "{}")) Fixture.client
      Fixture.background Fixture.npsso Fixture.w0 = Some (Ok t, w')
    /\ AccessExpires t = 3600
    /\ trace w' = tr ++ [EvNow t1; EvNow t2]
    /\ t1 <= AccessExpiresTime t.
Proof.
  eassert (Hrun : authRequest (Fixture.good (Fixture.respond 200 "{}")) Fixture.client
                    Fixture.background Fixture.npsso Fixture.w0
                  = Some (Ok _, _)) by (vm_compute; reflexivity).
  destruct (authRequest_expiry_lower_bound _ _ _ _ _ _ _ Hrun)
    as (tr & t1 & t2 & Htr & _ & Hle).
  - cbn. lia.
  - eexists _, _, tr, t1, t2.
    split; [exact Hrun |]. split; [reflexivity |]. split; [exact Htr | exact Hle].
Defined.

(** C8 as stated fails: a server that returns the lifetime -3600 gives
    a Token Pair whose access expiry lies before every reading of the
    clock made during the exchange. *)
Lemma authRequest_expiry_lower_bound_counterexample :
  ~ (forall (P : Platform) (c : Client) (ctx : Context) (npsso : string)
            (w w' : World) (t : Tokens),
        authRequest P c ctx npsso w = Some (Ok t, w') ->
        exists T, In (EvNow T) (trace w') /\ T <= AccessExpiresTime t).
Proof.
  intros H.
  eassert (Hrun : authRequest
                    (Fixture.platform Fixture.found (Fixture.respond 200 "tokens")
                       (Fixture.respond 200 "{}") (-3600) 5184000)
                    Fixture.client Fixture.background Fixture.npsso Fixture.w0
                  = Some (Ok _, _)) by (vm_compute; reflexivity).
  destruct (H _ _ _ _ _ _ _ Hrun) as (T & Hin & Hle).
  cbn in Hin, Hle.
  destruct Hin as [E|[E|[E|[E|[E|[E|[E|[]]]]]]]]; try discriminate E;
    injection E as <-; lia.
Qed.

(** ** Protected calls *)

Lemma handleStatus_spec (url : string) (s : Z) (body : string) :
  (s = 200 \/ s = 401 \/ s = 403 -> handleStatus url s body = Ok body)
  /\ (s = 404 -> handleStatus url s body = Fail (ErrNotFound url))
  /\ (s = 429 -> handleStatus url s body = Fail ErrRateLimit)
  /\ (s <> 200 -> s <> 401 -> s <> 403 -> s <> 404 -> s <> 429 ->
      handleStatus url s body = Fail (ErrUnexpectedStatus s body)).
Proof.
  unfold handleStatus, http_StatusOK, http_StatusUnauthorized, http_StatusForbidden,
    http_StatusNotFound, http_StatusTooManyRequests.
  split_and!.
  - intros [-> | [-> | ->]]; reflexivity.
  - intros ->. reflexivity.
  - intros ->. reflexivity.
  - intros H1 H2 H3 H4 H5.
    apply Z.eqb_neq in H1, H2, H3, H4, H5.
    rewrite H1, H2, H3, H4, H5. reflexivity.
Qed.

Lemma countAuthRequest_app (evs1 evs2 : list Event) :
  countAuthRequest (evs1 ++ evs2) = (countAuthRequest evs1 + countAuthRequest evs2)%nat.
Proof.
  unfold countAuthRequest. rewrite List.filter_app, List.length_app. reflexivity.
Qed.

Lemma countAuthRequest_exchange (evs : list Event) :
  forallb isExchangeEvent evs = true -> countAuthRequest evs = 0%nat.
Proof.
  induction evs as [| e evs IH]; [reflexivity |].
  cbn [forallb]. intros H. apply andb_true_iff in H as [He Hevs].
  change (e :: evs) with ([e] ++ evs). rewrite countAuthRequest_app, (IH Hevs).
  destruct e; try discriminate He; reflexivity.
Qed.

Lemma countAuthRequest_dispatch (tok : string) (evs : list Event) :
  forallb (isDispatchEvent tok) evs = true -> countAuthRequest evs = 0%nat.
Proof.
  induction evs as [| e evs IH]; [reflexivity |].
  cbn [forallb]. intros H. apply andb_true_iff in H as [He Hevs].
  change (e :: evs) with ([e] ++ evs). rewrite countAuthRequest_app, (IH Hevs).
  destruct e; try discriminate He; reflexivity.
Qed.

(** A request that carries a given bearer token is a bearer request. *)
Lemma isDispatchEvent_bearer (tok : string) (req : Request) (res : result Response) :
  isDispatchEvent tok (EvDo req res) = true -> isBearer req = true.
Proof.
  cbn [isDispatchEvent]. intros H. apply andb_true_iff in H as [_ H].
  apply String.eqb_eq in H. unfold isBearer. rewrite H.
  cbn. destruct tok; reflexivity.
Qed.

Lemma exchange_not_bearer (evs : list Event) (req : Request) (res : result Response) :
  forallb isExchangeEvent evs = true -> In (EvDo req res) evs -> isBearer req = false.
Proof.
  intros H Hin. rewrite forallb_forall in H. specialize (H _ Hin).
  cbn in H. apply negb_true_iff in H. exact H.
Qed.

Section Dispatch.

Context (P : Platform).

(** The protected GET, as [request] builds it. *)
Lemma dispatch_events (c : ClientAPI) (ctx : Context) (url : string)
    (w w' : World) (r : result string) (tokens : Tokens) :
  Tokens_ c = Some tokens ->
  dispatch P c ctx url w = Some (r, w') ->
  heap w' = heap w
  /\ exists evs, trace w' = trace w ++ evs
                /\ forallb (isDispatchEvent (AccessToken tokens)) evs = true
                /\ forall req resp body,
                     In (EvDo req (Ok resp)) evs -> Body resp = Ok body ->
                     r = handleStatus url (StatusCode resp) body.
Proof.
  intros Htok H.
  unfold dispatch, clientDo, deref, http_NewRequestWithContext, bind, emit, ret in H.
  rewrite Htok in H. cbn [heap trace] in H.
  run_cases H; injection H as <- <-;
    repeat match goal with
           | E : Ok _ = Ok _ |- _ => injection E as <-
           | E : (_, _) = (_, _) |- _ => injection E as <- <-
           end;
    (split; [reflexivity |]); trace_norm.
  all: try (exists []; rewrite app_nil_r; split; [reflexivity |];
            split; [reflexivity | intros ? ? ? []]).
  all: eexists; split; [reflexivity |]; split;
    [cbn; rewrite String.eqb_refl; reflexivity |].
  all: intros req resp body Hin Hbody; cbn in Hin.
  all: repeat match goal with
              | H : _ \/ _ |- _ => destruct H
              | H : False |- _ => destruct H
              | H : EvDo _ _ = EvDo _ _ |- _ => injection H as <- E
              | H : EvPrintln _ = EvDo _ _ |- _ => discriminate H
              end.
  all: congruence.
Qed.

Lemma dispatch_returns (c : ClientAPI) (ctx : Context) (url : string) (w : World)
    (tokens : Tokens) (l : loc) (hc : HttpClient) :
  Tokens_ c = Some tokens ->
  httpClient (Client_ c) = Some l ->
  heap w !! l = Some hc ->
  exists r w', dispatch P c ctx url w = Some (r, w').
Proof.
  intros Htok Hc Hl.
  unfold dispatch, clientDo, deref, http_NewRequestWithContext, bind, emit, ret.
  rewrite Htok, Hc.
  destruct (url_Parse P url); [| eauto].
  cbv beta iota zeta. rewrite Hl.
  destruct (http_Do P hc _ _) as [resp |]; [| eauto].
  destruct (CloseFails resp); eauto.
Qed.

(** The ways through [request]: no access token; a token still good,
    and the GET; an expired token, the exchange, and then either its
    error or the GET with the new tokens. *)
Lemma request_inv (c : ClientAPI) (ctx : Context) (url : string)
    (w w' : World) (r : result string) (c' : ClientAPI) :
  request P c ctx url w = Some ((r, c'), w') ->
  (r = Fail ErrInvalidTokens /\ c' = c /\ w' = w
   /\ (Tokens_ c = None \/ exists tokens, Tokens_ c = Some tokens
                                         /\ AccessToken tokens = ""%string))
  \/ exists tokens,
       Tokens_ c = Some tokens /\ AccessToken tokens <> ""%string
       /\ let t := time_Now P (trace w) in
          let w1 := mkWorld (heap w) (trace w ++ [EvNow t]) in
          (Time_Before (AccessExpiresTime tokens) t = false
           /\ c' = c /\ dispatch P c ctx url w1 = Some (r, w'))
          \/ (Time_Before (AccessExpiresTime tokens) t = true
              /\ exists ra w2,
                   authRequest P (Client_ c) ctx (NPSSO c) w1 = Some (ra, w2)
                   /\ match ra with
                      | Fail e => r = Fail (ErrRefreshingTokens e) /\ c' = c /\ w' = w2
                      | Ok newTokens =>
                          c' = setTokens c newTokens
                          /\ dispatch P (setTokens c newTokens) ctx url w2 = Some (r, w')
                      end).
Proof.
  unfold request. intros H.
  destruct (Tokens_ c) as [tokens |] eqn:Htok.
  2: { injection H as <- <- <-. left. auto. }
  destruct (String.eqb (AccessToken tokens) "") eqn:Hempty.
  { injection H as <- <- <-. left. apply String.eqb_eq in Hempty. eauto 7. }
  apply String.eqb_neq in Hempty.
  right. exists tokens. split; [reflexivity |]. split; [exact Hempty |].
  cbv zeta. unfold bind at 1 in H. unfold now in H. cbv beta iota zeta in H.
  destruct (Time_Before _ _).
  - right. split; [reflexivity |].
    apply bind_Some in H as (ra & w2 & Hauth & H).
    exists ra, w2. split; [exact Hauth |].
    destruct ra as [newTokens | e].
    + apply bind_Some in H as (b & w3 & Hd & H).
      injection H as <- <- <-. split; [reflexivity | exact Hd].
    + injection H as <- <- <-. auto.
  - left. split; [reflexivity |].
    apply bind_Some in H as (b & w3 & Hd & H).
    injection H as <- <- <-. split; [reflexivity | exact Hd].
Qed.

(** What a run of [request] leaves in the trace, and where the answer
    to the protected GET goes. *)
Lemma request_trace (c : ClientAPI) (ctx : Context) (url : string)
    (w w' : World) (r : result string) (c' : ClientAPI) :
  request P c ctx url w = Some ((r, c'), w') ->
  heap w' = heap w
  /\ exists evs, trace w' = trace w ++ evs
       /\ forall req resp body,
            In (EvDo req (Ok resp)) evs -> isBearer req = true ->
            Body resp = Ok body ->
            r = handleStatus url (StatusCode resp) body.
Proof.
  intros H. apply request_inv in H.
  destruct H as [(-> & -> & -> & _) | (tokens & Htok & _ & H)].
  { split; [reflexivity |]. exists []. rewrite app_nil_r.
    split; [reflexivity | intros ? ? ? []]. }
  cbv zeta in H.
  destruct H as [(_ & -> & Hd) | (_ & ra & w2 & Hauth & H)].
  - destruct (dispatch_events _ _ _ _ _ _ _ Htok Hd) as (Hh & evD & Htr & _ & Hres).
    split; [exact Hh |]. eexists. split.
    + rewrite Htr. cbn [trace]. rewrite <- app_assoc. reflexivity.
    + intros req resp body [E | Hin] Hb Hbody; [discriminate E |]. eauto.
  - destruct (authRequest_events _ _ _ _ _ _ _ Hauth) as (Hh & evA & Htr & HevA).
    cbn [heap trace] in Hh, Htr.
    destruct ra as [newTokens | e].
    + destruct H as (-> & Hd).
      assert (Htok' : Tokens_ (setTokens c newTokens) = Some newTokens) by reflexivity.
      destruct (dispatch_events _ _ _ _ _ _ _ Htok' Hd) as (Hh' & evD & Htr' & _ & Hres).
      split; [congruence |]. eexists. split.
      * rewrite Htr', Htr. repeat rewrite <- app_assoc. reflexivity.
      * cbn [app]. intros req resp body Hin Hb Hbody.
        destruct Hin as [E | [E | Hin]]; try discriminate E.
        apply in_app_or in Hin as [Hin | Hin]; [| eauto].
        rewrite (exchange_not_bearer _ _ _ HevA Hin) in Hb. discriminate Hb.
    + destruct H as (-> & -> & ->).
      split; [exact Hh |]. eexists. split.
      * rewrite Htr. rewrite <- app_assoc. reflexivity.
      * cbn [app]. intros req resp body Hin Hb Hbody.
        destruct Hin as [E | [E | Hin]]; try discriminate E.
        rewrite (exchange_not_bearer _ _ _ HevA Hin) in Hb. discriminate Hb.
Qed.

End Dispatch.

(** C9. A protected call on a session without Token Pair, or whose
    access token is empty, returns the validation error at once: the
    session and the world are as before, so the clock was not read (no
    expiry check), the exchange was not entered and nothing was sent.
    This is so whatever the expiry instant of the Token Pair. *)
Theorem request_unauthenticated (P : Platform) (c : ClientAPI) (ctx : Context)
    (url : string) (w : World) :
  (Tokens_ c = None
   \/ exists tokens, Tokens_ c = Some tokens /\ AccessToken tokens = ""%string) ->
  request P c ctx url w = Some ((Fail ErrInvalidTokens, c), w).
Proof.
  intros [Hnil | (tokens & Htok & Hempty)]; unfold request.
  - rewrite Hnil. reflexivity.
  - rewrite Htok, Hempty. reflexivity.
Qed.

Lemma request_unauthenticated_witness :
  Time_Before 1000 (Fixture.clock (trace Fixture.w0)) = true
  /\ request (Fixture.good (Fixture.respond 200 "{}")) Fixture.unauthenticated
       Fixture.background Fixture.url Fixture.w0
     = Some ((Fail ErrInvalidTokens, Fixture.unauthenticated), Fixture.w0).
Proof.
  split; [reflexivity |].
  apply request_unauthenticated.
  right. exists (mkTokens "" "" 0 0 1000 2000). split; reflexivity.
Defined.

(** C4 (amended). In a protected call, take the answer [resp] to the
    protected GET (the request that carries the bearer token) whose
    body was read in full, as [body]. With status 200, 401 or 403 the
    call returns the body; with 404 it fails with the not-found error
    for the URL; with 429 with the rate-limit error; with any other
    status with the unexpected-status error that carries the status and
    the body. *)
Theorem request_status (P : Platform) (c : ClientAPI) (ctx : Context) (url : string)
    (w w' : World) (r : result string) (c' : ClientAPI)
    (evs : list Event) (req : Request) (resp : Response) (body : string) :
  request P c ctx url w = Some ((r, c'), w') ->
  trace w' = trace w ++ evs ->
  In (EvDo req (Ok resp)) evs ->
  isBearer req = true ->
  Body resp = Ok body ->
  let s := StatusCode resp in
  (s = 200 \/ s = 401 \/ s = 403 -> r = Ok body)
  /\ (s = 404 -> r = Fail (ErrNotFound url))
  /\ (s = 429 -> r = Fail ErrRateLimit)
  /\ (s <> 200 -> s <> 401 -> s <> 403 -> s <> 404 -> s <> 429 ->
      r = Fail (ErrUnexpectedStatus s body)).
Proof.
  intros Hrun Htr Hin Hb Hbody s.
  destruct (request_trace P _ _ _ _ _ _ _ Hrun) as (_ & evs' & Htr' & Hres).
  rewrite Htr in Htr'. apply app_inv_head in Htr'. subst evs'.
  rewrite (Hres _ _ _ Hin Hb Hbody). fold s.
  apply handleStatus_spec.
Qed.

Lemma request_status_witness :
  exists c' w',
    request (Fixture.good (Fixture.respond 404 "gone")) Fixture.valid
      Fixture.background Fixture.url Fixture.w0
    = Some ((Fail (ErrNotFound Fixture.url), c'), w').
Proof.
  eassert (Hrun : request (Fixture.good (Fixture.respond 404 "gone")) Fixture.valid
                    Fixture.background Fixture.url Fixture.w0
                  = Some ((_, _), _)) by (vm_compute; reflexivity).
  pose (req := mkRequest "GET" Fixture.url
                 [("Authorization", "Bearer cur"); ("Accept", "application/json");
                  ("Accept-Language", "en")]%string "").
  pose (resp := mkResponse 404 [] (Ok "gone"%string) false).
  destruct (request_status _ _ _ _ _ _ _ _
              [EvNow 1700000000000000000; EvDo req (Ok resp)] req resp "gone"%string Hrun)
    as (_ & H404 & _).
  - reflexivity.
  - right; left; reflexivity.
  - reflexivity.
  - reflexivity.
  - eexists _, _. rewrite <- (H404 eq_refl). exact Hrun.
Defined.

(** C4 as stated fails: the body is read before the status is looked
    at, so a response with status 404 whose body cannot be read makes
    the call fail with the read error, not with the not-found error. *)
Lemma request_status_counterexample :
  ~ (forall (P : Platform) (c : ClientAPI) (ctx : Context) (url : string)
            (w w' : World) (r : result string) (c' : ClientAPI)
            (evs : list Event) (req : Request) (resp : Response),
        request P c ctx url w = Some ((r, c'), w') ->
        trace w' = trace w ++ evs ->
        In (EvDo req (Ok resp)) evs ->
        isBearer req = true ->
        StatusCode resp = 404 ->
        r = Fail (ErrNotFound url)).
Proof.
  intros H.
  pose (resp := mkResponse 404 [] (Fail (ErrExternal "unexpected EOF")) false).
  pose (req := mkRequest "GET" Fixture.url
                 [("Authorization", "Bearer cur"); ("Accept", "application/json");
                  ("Accept-Language", "en")]%string "").
  eassert (Hrun : request (Fixture.good (Ok resp)) Fixture.valid
                    Fixture.background Fixture.url Fixture.w0
                  = Some ((_, _), _)) by (vm_compute; reflexivity).
  specialize (H _ _ _ _ _ _ _ _
                [EvNow 1700000000000000000; EvDo req (Ok resp)] req resp Hrun).
  assert (E : Fail (ErrReadingBody (ErrExternal "unexpected EOF"))
              = Fail (ErrNotFound Fixture.url) :> result string).
  { apply H.
    - reflexivity.
    - right; left; reflexivity.
    - reflexivity.
    - reflexivity. }
  discriminate E.
Qed.

Example request_unreadable_404_run :
  option_map (fun x => fst (fst x))
    (request (Fixture.good
                (Ok (mkResponse 404 [] (Fail (ErrExternal "unexpected EOF")) false)))
       Fixture.valid Fixture.background Fixture.url Fixture.w0)
  = Some (Fail (ErrReadingBody (ErrExternal "unexpected EOF"))).
Proof. vm_compute. reflexivity. Qed.

Example request_401_run :
  option_map fst
    (request (Fixture.good (Fixture.respond 401 "error:expired")) Fixture.valid
       Fixture.background Fixture.url Fixture.w0)
  = Some (Ok "error:expired"%string, Fixture.valid).
Proof. vm_compute. reflexivity. Qed.

Example request_500_run :
  option_map (fun x => option_map Error
                         match fst (fst x) with Fail e => Some e | Ok _ => None end)
    (request (Fixture.good (Fixture.respond 500 "oops")) Fixture.valid
       Fixture.background Fixture.url Fixture.w0)
  = Some (Some "unexpected status code: 500, body: oops"%string).
Proof. vm_compute. reflexivity. Qed.

(** C1. A protected call on a session that holds a non-empty access
    token, through a client whose [http.Client] is there, returns, and
    starts with one reading [t] of the clock. If the access expiry is
    before [t], the exchange is entered exactly once, with the client
    and the stored credential of the session, right after that reading;
    if it fails with [e] the call fails with the refresh error around
    [e], the session is as before and nothing follows the exchange in
    the trace (the exchange itself sends no request with a bearer
    token); if it gives new tokens the session holds them, and all that
    follows the exchange is the protected GET carrying the new access
    token. If the access expiry is not before [t], the exchange is
    not entered, the session is as before and the GET carries the held
    access token. *)
Theorem request_refresh (P : Platform) (c : ClientAPI) (ctx : Context) (url : string)
    (w : World) (tokens : Tokens) (l : loc) (hc : HttpClient) :
  Tokens_ c = Some tokens ->
  AccessToken tokens <> ""%string ->
  httpClient (Client_ c) = Some l ->
  heap w !! l = Some hc ->
  let t := time_Now P (trace w) in
  let w1 := mkWorld (heap w) (trace w ++ [EvNow t]) in
  exists r c' w' evs,
    request P c ctx url w = Some ((r, c'), w')
    /\ trace w' = trace w ++ EvNow t :: evs
    /\ (AccessExpiresTime tokens < t ->
        countAuthRequest evs = 1%nat
        /\ exists ra w2 evA evD,
             authRequest P (Client_ c) ctx (NPSSO c) w1 = Some (ra, w2)
             /\ trace w2 = trace w1 ++ EvAuthRequest (NPSSO c) :: evA
             /\ evs = EvAuthRequest (NPSSO c) :: evA ++ evD
             /\ forallb isExchangeEvent evA = true
             /\ match ra with
                | Fail e => r = Fail (ErrRefreshingTokens e) /\ c' = c /\ evD = []
                | Ok newTokens =>
                    c' = setTokens c newTokens
                    /\ forallb (isDispatchEvent (AccessToken newTokens)) evD = true
                end)
    /\ (t <= AccessExpiresTime tokens ->
        countAuthRequest evs = 0%nat
        /\ c' = c
        /\ forallb (isDispatchEvent (AccessToken tokens)) evs = true).
Proof.
  intros Htok Hne Hc Hl t w1.
  apply String.eqb_neq in Hne.
  unfold request. rewrite Htok, Hne.
  unfold bind at 1. unfold now. cbv beta iota zeta. fold t. fold w1.
  unfold Time_Before.
  destruct (Z.ltb_spec (AccessExpiresTime tokens) t) as [Hlt | Hge].
  - (* expired *)
    destruct (authRequest_returns P (Client_ c) ctx (NPSSO c) w1 l hc Hc Hl)
      as (ra & w2 & Hauth).
    destruct (authRequest_events P _ _ _ _ _ _ Hauth) as (Hh & evA & Htr & HevA).
    unfold bind at 1. rewrite Hauth.
    destruct ra as [newTokens | e].
    + assert (Hl2 : heap w2 !! l = Some hc) by (rewrite Hh; exact Hl).
      destruct (dispatch_returns P (setTokens c newTokens) ctx url w2 newTokens l hc
                  eq_refl Hc Hl2) as (r & w3 & Hd).
      destruct (dispatch_events P (setTokens c newTokens) _ _ _ _ _ newTokens eq_refl Hd)
        as (_ & evD & Htr3 & HevD & _).
      exists r, (setTokens c newTokens), w3, (EvAuthRequest (NPSSO c) :: evA ++ evD).
      unfold bind. rewrite Hd. split; [reflexivity |]. split.
      { rewrite Htr3, Htr. subst w1. cbn [trace].
        repeat rewrite <- app_assoc. reflexivity. }
      split; [| intros Hle; lia].
      intros _. split.
      { change (EvAuthRequest (NPSSO c) :: evA ++ evD)
          with ([EvAuthRequest (NPSSO c)] ++ evA ++ evD).
        rewrite !countAuthRequest_app, (countAuthRequest_exchange _ HevA),
          (countAuthRequest_dispatch _ _ HevD). reflexivity. }
      exists (Ok newTokens), w2, evA, evD. split_and!; auto.
    + exists (Fail (ErrRefreshingTokens e)), c, w2, (EvAuthRequest (NPSSO c) :: evA).
      split; [reflexivity |]. split.
      { rewrite Htr. subst w1. cbn [trace]. rewrite <- app_assoc. reflexivity. }
      split; [| intros Hle; lia].
      intros _. split.
      { change (EvAuthRequest (NPSSO c) :: evA) with ([EvAuthRequest (NPSSO c)] ++ evA).
        rewrite countAuthRequest_app, (countAuthRequest_exchange _ HevA). reflexivity. }
      exists (Fail e), w2, evA, []. rewrite app_nil_r. split_and!; auto.
  - (* still good *)
    assert (Hl1 : heap w1 !! l = Some hc) by exact Hl.
    destruct (dispatch_returns P c ctx url w1 tokens l hc Htok Hc Hl1) as (r & w3 & Hd).
    destruct (dispatch_events P _ _ _ _ _ _ _ Htok Hd) as (_ & evD & Htr3 & HevD & _).
    exists r, c, w3, evD. unfold bind. rewrite Hd.
    split; [reflexivity |]. split.
    { rewrite Htr3. subst w1. cbn [trace]. rewrite <- app_assoc. reflexivity. }
    split; [intros Hlt; lia |].
    intros _. split; [exact (countAuthRequest_dispatch _ _ HevD) |]. auto.
Qed.

Lemma request_refresh_witness :
  exists c' w' evs,
    request (Fixture.good (Fixture.respond 200 "{}")) Fixture.expired
      Fixture.background Fixture.url Fixture.w0 = Some ((Ok "{}"%string, c'), w')
    /\ trace w' = EvNow 1700000000000000000 :: evs
    /\ countAuthRequest evs = 1%nat
    /\ option_map AccessToken (Tokens_ c') = Some "A"%string.
Proof.
  destruct (request_refresh (Fixture.good (Fixture.respond 200 "{}")) Fixture.expired
              Fixture.background Fixture.url Fixture.w0
              (mkTokens "old" "B" 3600 5184000 1000 2000) 1%positive
              Fixture.defaultClient eq_refl)
    as (r & c' & w' & evs & Hrun & Htr & Hexp & _).
  - discriminate.
  - reflexivity.
  - reflexivity.
  - destruct Hexp as (Hcount & _); [reflexivity |].
    pose proof Hrun as Hval. vm_compute in Hval.
    injection Hval as <- <- <-.
    eexists _, _, evs. split; [vm_compute; reflexivity |].
    split; [| split; [exact Hcount | reflexivity]].
    vm_compute in Htr. injection Htr as <-. reflexivity.
Defined.

(** ** No Token Pair without a successful exchange *)

(** C6. A Token Pair is installed only by an exchange that succeeded.
    [Authenticate] on a well-formed credential returns the error of a
    failed exchange and no session; when it returns a session, its
    Token Pair is the result of the exchange. A protected call whose
    refresh fails returns the refresh error and leaves the session as it
    was; whenever a protected call returns, the session is as before or
    holds the result of a successful exchange. And an exchange during
    which the context reported an error, at the check after either
    step, did not succeed: in a successful one both checks found the
    context alive. *)
Theorem failed_exchange_installs_nothing (P : Platform) :
  (forall c ctx npsso w e w1,
      validateNPSSO npsso = None ->
      authRequest P c ctx npsso w = Some (Fail e, w1) ->
      Authenticate P c ctx npsso w = Some (Fail (ErrAuthRequest e), w1))
  /\ (forall c ctx npsso w api w',
         Authenticate P c ctx npsso w = Some (Ok api, w') ->
         exists tokens, authRequest P c ctx npsso w = Some (Ok tokens, w')
                        /\ api = mkClientAPI c (Some tokens) npsso)
  /\ (forall c ctx url w tokens e w2,
         Tokens_ c = Some tokens ->
         AccessToken tokens <> ""%string ->
         AccessExpiresTime tokens < time_Now P (trace w) ->
         authRequest P (Client_ c) ctx (NPSSO c)
           (mkWorld (heap w) (trace w ++ [EvNow (time_Now P (trace w))]))
         = Some (Fail e, w2) ->
         request P c ctx url w = Some ((Fail (ErrRefreshingTokens e), c), w2))
  /\ (forall c ctx url w r c' w',
         request P c ctx url w = Some ((r, c'), w') ->
         c' = c
         \/ exists tokens w1 w2,
              authRequest P (Client_ c) ctx (NPSSO c) w1 = Some (Ok tokens, w2)
              /\ c' = setTokens c tokens)
  /\ (forall c ctx npsso w tokens w' evs e,
         authRequest P c ctx npsso w = Some (Ok tokens, w') ->
         trace w' = trace w ++ evs ->
         In (EvCtxErr e) evs ->
         e = None).
Proof.
  split_and!.
  - intros c ctx npsso w e w1 Hv Hrun.
    unfold Authenticate, bind. rewrite Hv, Hrun. reflexivity.
  - intros c ctx npsso w api w' Hrun.
    unfold Authenticate in Hrun.
    destruct (validateNPSSO npsso); [discriminate Hrun |].
    apply bind_Some in Hrun as ([tokens | e] & w1 & Hauth & Hret);
      [| discriminate Hret].
    injection Hret as <- <-.
    exists tokens. split; [exact Hauth | reflexivity].
  - intros c ctx url w tokens e w2 Htok Hne Hlt Hrun.
    apply String.eqb_neq in Hne. apply Z.ltb_lt in Hlt.
    unfold request. rewrite Htok, Hne.
    unfold bind at 1. unfold now. cbv beta iota zeta.
    unfold Time_Before. rewrite Hlt.
    unfold bind. rewrite Hrun. reflexivity.
  - intros c ctx url w r c' w' Hrun.
    apply request_inv in Hrun.
    destruct Hrun as [(_ & -> & _) | (tokens & _ & _ & H)]; [left; reflexivity |].
    cbv zeta in H.
    destruct H as [(_ & -> & _) | (_ & ra & w2 & Hauth & H)]; [left; reflexivity |].
    destruct ra as [newTokens | e].
    + destruct H as (-> & _). right. eauto.
    + destruct H as (_ & -> & _). left. reflexivity.
  - intros c ctx npsso w tokens w' evs e Hrun Htr Hin.
    destruct (authRequest_Ok_inv P c ctx npsso w w' tokens Hrun)
      as (resp & u & tokenResp & body & decoded & t1 & t2 & H).
    cbv zeta in H. destruct H as (_ & Htr' & _).
    rewrite Htr, <- app_assoc in Htr'. apply app_inv_head in Htr'. subst evs.
    cbn in Hin.
    repeat (destruct Hin as [E | Hin]; [try discriminate E; congruence |]).
    destruct Hin.
Qed.

Lemma failed_exchange_installs_nothing_witness :
  exists w',
    request (Fixture.platform (Fixture.respond 500 "") (Fixture.respond 200 "tokens")
               (Fixture.respond 200 "{}") 3600 5184000)
      Fixture.expired Fixture.background Fixture.url Fixture.w0
    = Some ((Fail (ErrRefreshingTokens ErrCheckNPSSO), Fixture.expired), w').
Proof.
  destruct (failed_exchange_installs_nothing
              (Fixture.platform (Fixture.respond 500 "") (Fixture.respond 200 "tokens")
                 (Fixture.respond 200 "{}") 3600 5184000))
    as (_ & _ & H & _).
  eexists. eapply H.
  - reflexivity.
  - discriminate.
  - reflexivity.
  - vm_compute. reflexivity.
Defined.

Example authenticate_cancelled_run :
  option_map fst
    (Authenticate (Fixture.good (Fixture.respond 200 "{}")) Fixture.client
       Fixture.cancelled Fixture.npsso Fixture.w0)
  = Some (Fail (ErrAuthRequest (ErrRequestCancelled (ErrExternal "context canceled")))).
Proof. vm_compute. reflexivity. Qed.

(** ** Decoding layer *)

(** C5. When the protected call hands over a body, it is decoded as
    the error envelope first. If that fails, the result is the
    unmarshal error and the target is as it was. If the envelope's
    code is not zero, the result is the request error with the
    envelope's message, and the target is as it was: the body was not
    decoded into it. If the code is zero, the body is decoded into the
    target: a failure is the unmarshal error, otherwise the result is
    nil and the target is the decoded value. *)
Theorem requestAndUnmarshal_decoding (P : Platform) (V : Type)
    (unmarshal : Unmarshaler V) (c : ClientAPI) (ctx : Context) (url : string)
    (v : V) (w w' : World) (body : string) (c' : ClientAPI) :
  request P c ctx url w = Some ((Ok body, c'), w') ->
  let run := requestAndUnmarshal P unmarshal c ctx url v w in
  (forall e x,
      json_Unmarshal_RequestError P body zeroRequestError = (Some e, x) ->
      run = Some ((Some (ErrUnmarshal e body), v, c'), w'))
  /\ (forall requestError,
         json_Unmarshal_RequestError P body zeroRequestError = (None, requestError) ->
         Code (Error_ requestError) <> 0 ->
         run = Some ((Some (ErrRequestError (Message (Error_ requestError))), v, c'), w'))
  /\ (forall requestError,
         json_Unmarshal_RequestError P body zeroRequestError = (None, requestError) ->
         Code (Error_ requestError) = 0 ->
         (forall e v', unmarshal body v = (Some e, v') ->
                       run = Some ((Some (ErrUnmarshal e body), v', c'), w'))
         /\ (forall v', unmarshal body v = (None, v') ->
                        run = Some ((None, v', c'), w'))).
Proof.
  intros Hrun run. subst run. unfold requestAndUnmarshal, bind. rewrite Hrun.
  split_and!.
  - intros e x Hj. rewrite Hj. reflexivity.
  - intros re Hj Hcode. rewrite Hj.
    apply Z.eqb_neq in Hcode. rewrite Hcode. reflexivity.
  - intros re Hj Hcode. rewrite Hj, Hcode. cbn [Z.eqb negb].
    split.
    + intros e v' Hu. rewrite Hu. reflexivity.
    + intros v' Hu. rewrite Hu. reflexivity.
Qed.

Lemma requestAndUnmarshal_decoding_witness :
  exists c' w',
    requestAndUnmarshal (Fixture.good (Fixture.respond 200 "error:boom"))
      Fixture.unmarshalText Fixture.valid Fixture.background Fixture.url
      "untouched"%string Fixture.w0
    = Some ((Some (ErrRequestError "boom"), "untouched"%string, c'), w').
Proof.
  eassert (Hrun : request (Fixture.good (Fixture.respond 200 "error:boom")) Fixture.valid
                    Fixture.background Fixture.url Fixture.w0
                  = Some ((Ok _, _), _)) by (vm_compute; reflexivity).
  destruct (requestAndUnmarshal_decoding _ _ Fixture.unmarshalText _ _ _
              "untouched"%string _ _ _ _ Hrun) as (_ & Hcode & _).
  eexists _, _. apply (Hcode (mkRequestError (mkRequestErrorBody "" "" 2105356 "boom" ""))).
  - reflexivity.
  - discriminate.
Defined.

Example requestAndUnmarshal_ok_run :
  option_map fst
    (requestAndUnmarshal (Fixture.good (Fixture.respond 200 "profile"))
       Fixture.unmarshalText Fixture.valid Fixture.background Fixture.url
       "untouched"%string Fixture.w0)
  = Some (None, "profile"%string, Fixture.valid).
Proof. vm_compute. reflexivity. Qed.

Example requestAndUnmarshal_malformed_run :
  option_map (fun x => fst (fst (fst x)))
    (requestAndUnmarshal (Fixture.good (Fixture.respond 200 "not json"))
       Fixture.unmarshalText Fixture.valid Fixture.background Fixture.url
       "untouched"%string Fixture.w0)
  = Some (Some (ErrUnmarshal (ErrExternal "invalid character") "not json")).
Proof. vm_compute. reflexivity. Qed.

(** ** Client builder *)

Lemma applyOptions_world (opts : list (option Options)) (c c' : Client) (w w' : World) :
  applyOptions opts c w = Some (c', w') -> w' = w.
Proof.
  revert c. induction opts as [| [opt |] opts IH]; intros c H; cbn in H.
  - injection H as _ <-. reflexivity.
  - exact (IH _ H).
  - discriminate H.
Qed.

(** C10. [NewClient] returns whenever every option is a function and
    the [http.Client] they select is there. Whatever the options, the
    [Client] it returns points to an [http.Client] whose
    [CheckRedirect] answers [ErrUseLastResponse] to every redirect; that
    [http.Client] is a new object, a copy of the one the options
    selected (the default one, or the one given through [WithClient])
    with the policy replaced, and every [http.Client] that existed
    before, the caller's included, is as it was, its policy too.
    Nothing else happens. *)
Theorem NewClient_redirects_disabled (P : Platform) (opts : list (option Options))
    (w : World) :
  (forall configured p source,
      applyOptions opts (defaultConfig P) w = Some (configured, w) ->
      httpClient configured = Some p ->
      heap w !! p = Some source ->
      exists c w', NewClient P opts w = Some (c, w'))
  /\ (forall c w',
         NewClient P opts w = Some (c, w') ->
         exists l hc configured p source,
           httpClient c = Some l
           /\ heap w' !! l = Some hc
           /\ (exists f, CheckRedirect hc = Some f
                         /\ forall req via, f req via = Some ErrUseLastResponse)
           /\ heap w !! l = None
           /\ (forall l0 hc0, heap w !! l0 = Some hc0 -> heap w' !! l0 = Some hc0)
           /\ trace w' = trace w
           /\ applyOptions opts (defaultConfig P) w = Some (configured, w)
           /\ httpClient configured = Some p
           /\ heap w !! p = Some source
           /\ Transport hc = Transport source
           /\ Jar hc = Jar source
           /\ Timeout hc = Timeout source
           /\ lang c = lang configured
           /\ region c = region configured).
Proof.
  split.
  { intros configured p source Hopts Hp Hsource.
    unfold NewClient, bind, deref, alloc, ret.
    rewrite Hopts, Hp, Hsource. eauto. }
  intros c w' H. unfold NewClient in H.
  apply bind_Some in H as (configured & w1 & Hopts & H).
  pose proof (applyOptions_world _ _ _ _ _ Hopts) as ->.
  apply bind_Some in H as (source & w2 & Hderef & H).
  unfold deref in Hderef.
  destruct (httpClient configured) as [p |] eqn:Hp; [| discriminate Hderef].
  destruct (heap w !! p) as [source' |] eqn:Hsource; [| discriminate Hderef].
  injection Hderef as -> <-.
  unfold bind, alloc, ret in H. injection H as <- <-. cbn [heap trace httpClient lang region].
  set (l := fresh (dom (heap w))).
  assert (Hfresh : heap w !! l = None)
    by (apply not_elem_of_dom; apply is_fresh).
  exists l, (setCheckRedirect source useLastResponse), configured, p, source.
  split_and!; try reflexivity; try assumption.
  - apply lookup_insert_eq.
  - exists useLastResponse. split; reflexivity.
  - intros l0 hc0 Hl0. rewrite lookup_insert_ne; [exact Hl0 |].
    intros ->. congruence.
Qed.

Lemma NewClient_redirects_disabled_witness :
  exists c w',
    NewClient (Fixture.good (Fixture.respond 200 "{}"))
      [fst (WithClient (Some 2%positive))] Fixture.w0 = Some (c, w')
    /\ httpClient c <> Some 2%positive
    /\ heap w' !! 2%positive = Some Fixture.callerClient.
Proof.
  eassert (Hrun : NewClient (Fixture.good (Fixture.respond 200 "{}"))
                    [fst (WithClient (Some 2%positive))] Fixture.w0
                  = Some (_, _)) by (vm_compute; reflexivity).
  destruct (NewClient_redirects_disabled (Fixture.good (Fixture.respond 200 "{}"))
              [fst (WithClient (Some 2%positive))] Fixture.w0) as (_ & H).
  destruct (H _ _ Hrun)
    as (l & hc & configured & p & source & Hl & _ & _ & Hnew & Hframe & _).
  eexists _, _. split; [exact Hrun |]. split.
  - rewrite Hl. intros E. injection E as ->.
    vm_compute in Hnew. discriminate Hnew.
  - apply Hframe. reflexivity.
Defined.

(** * Further properties *)

(** ** Token exchange: what is sent *)

Lemma requestsOf_app (evs1 evs2 : list Event) :
  requestsOf (evs1 ++ evs2) = requestsOf evs1 ++ requestsOf evs2.
Proof.
  induction evs1 as [| e evs1 IH]; [reflexivity |].
  destruct e; cbn [requestsOf app]; rewrite IH; reflexivity.
Qed.

Lemma requestsOf_In (evs : list Event) (req : Request) :
  In req (requestsOf evs) <-> exists res, In (EvDo req res) evs.
Proof.
  induction evs as [| e evs IH]; cbn [requestsOf In].
  - split; [intros [] | intros [_ []]].
  - destruct e; cbn [In]; rewrite ?IH; split;
      try (intros (res & [E | H]); [discriminate E | eauto]);
      try (intros (res & H); exists res; right; exact H).
    + intros [-> | (res' & H)]; [exists res; left; reflexivity | exists res'; right; exact H].
    + intros (res' & [E | H]); [injection E as -> _; left; reflexivity | right; eauto].
Qed.

Section ExchangeMore.

Context (P : Platform).

(** The requests of a run of the exchange, and the error when the
    context was found done. *)
Lemma authRequest_shape (c : Client) (ctx : Context) (npsso : string)
    (w w' : World) (r : result Tokens) :
  authRequest P c ctx npsso w = Some (r, w') ->
  exists evs,
    trace w' = trace w ++ EvAuthRequest npsso :: evs
    /\ (requestsOf evs = []
        \/ requestsOf evs = [authorizeRequest P npsso]
        \/ exists code, requestsOf evs = [authorizeRequest P npsso; tokenRequest P code])
    /\ (r = Fail ErrNPSSORequired -> npsso = ""%string)
    /\ (forall e, In (EvCtxErr (Some e)) evs ->
                  r = Fail (ErrRequestCancelled e)
                  \/ r = Fail (ErrTokenRequestCancelled e)).
Proof.
  intros H.
  unfold authRequest, tokenStep, setExpirationTimes, clientDo, deref,
    http_NewRequestWithContext, bind, emit, ctxErr, now, ret in H.
  cbn [heap trace] in H.
  run_cases H; injection H as <- <-;
    repeat match goal with
           | E : Ok _ = Ok _ |- _ => injection E as <-
           | E : (_, _) = (_, _) |- _ => injection E as <- <-
           end;
    trace_norm;
    (eexists; split; [reflexivity |]);
    cbn [requestsOf];
    (split; [auto; right; right; eexists; reflexivity |]);
    (split; [first [ intros _; apply String.eqb_eq; assumption | discriminate ] |]);
    intros e0 Hin; cbn [In] in Hin;
    repeat (destruct Hin as [E | Hin];
            [try discriminate E; injection E as E; subst; auto |]);
    destruct Hin.
Qed.

End ExchangeMore.

(** X1. A protected call on a session whose stored credential is
    empty and whose access token has expired fails with the refresh
    error around "npsso parameter is required": the exchange is entered
    and left at once, nothing is sent, and this is so even when the
    client has no [http.Client] at all. *)
Theorem request_empty_credential (P : Platform) (c : ClientAPI) (ctx : Context)
    (url : string) (w : World) (tokens : Tokens) :
  Tokens_ c = Some tokens ->
  AccessToken tokens <> ""%string ->
  NPSSO c = ""%string ->
  AccessExpiresTime tokens < time_Now P (trace w) ->
  request P c ctx url w
  = Some ((Fail (ErrRefreshingTokens ErrNPSSORequired), c),
          mkWorld (heap w)
            (trace w ++ [EvNow (time_Now P (trace w)); EvAuthRequest ""])).
Proof.
  intros Htok Hne Hnp Hlt.
  apply String.eqb_neq in Hne. apply Z.ltb_lt in Hlt.
  unfold request. rewrite Htok, Hne, Hnp.
  unfold bind at 1. unfold now. cbv beta iota zeta.
  unfold Time_Before. rewrite Hlt.
  unfold authRequest, bind, emit, ret. cbn [String.eqb heap trace].
  rewrite <- app_assoc. reflexivity.
Qed.

Lemma request_empty_credential_witness :
  request (Fixture.good (Fixture.respond 200 "{}"))
    (mkClientAPI (mkClient None "en" "us")
       (Some (mkTokens "old" "B" 3600 5184000 1000 2000)) "")
    Fixture.background Fixture.url Fixture.w0
  = Some ((Fail (ErrRefreshingTokens ErrNPSSORequired),
           mkClientAPI (mkClient None "en" "us")
             (Some (mkTokens "old" "B" 3600 5184000 1000 2000)) ""),
          mkWorld (heap Fixture.w0) [EvNow 1700000000000000000; EvAuthRequest ""]).
Proof.
  apply (request_empty_credential (Fixture.good (Fixture.respond 200 "{}"))
           (mkClientAPI (mkClient None "en" "us")
              (Some (mkTokens "old" "B" 3600 5184000 1000 2000)) "")
           Fixture.background Fixture.url Fixture.w0
           (mkTokens "old" "B" 3600 5184000 1000 2000)).
  - reflexivity.
  - discriminate.
  - reflexivity.
  - reflexivity.
Defined.

(** X2. Whatever happens, a run of the exchange sends nothing, or the
    authorization request alone, or the authorization request and then
    the token request for some code: never more than these two, never
    one of them twice, and the credential travels only as the cookie of
    the first. When it gives tokens, both were sent. *)
Theorem authRequest_round_trips (P : Platform) (c : Client) (ctx : Context)
    (npsso : string) (w w' : World) (r : result Tokens) :
  authRequest P c ctx npsso w = Some (r, w') ->
  exists evs,
    trace w' = trace w ++ EvAuthRequest npsso :: evs
    /\ (requestsOf evs = []
        \/ requestsOf evs = [authorizeRequest P npsso]
        \/ exists code, requestsOf evs = [authorizeRequest P npsso; tokenRequest P code])
    /\ (forall t, r = Ok t ->
        exists code, requestsOf evs = [authorizeRequest P npsso; tokenRequest P code]
                     /\ String.prefix "v3" code = true).
Proof.
  intros H.
  destruct (authRequest_shape P _ _ _ _ _ _ H) as (evs & Htr & Hreq & _).
  exists evs. split; [exact Htr |]. split; [exact Hreq |].
  intros t ->.
  destruct (authRequest_Ok_inv P _ _ _ _ _ _ H)
    as (resp & u & tokenResp & body & decoded & t1 & t2 & Hinv).
  cbv zeta in Hinv. destruct Hinv as (_ & Htr' & _ & _ & Hpre & _).
  rewrite Htr in Htr'. rewrite <- app_assoc in Htr'. apply app_inv_head in Htr'.
  cbn [app] in Htr'. injection Htr' as ->.
  exists (url_Query_Get P u "code"). split; [reflexivity | exact Hpre].
Qed.

Lemma authRequest_round_trips_witness :
  exists w' evs,
    authRequest (Fixture.platform (Fixture.respond 500 "") (Fixture.respond 200 "tokens")
                   (Fixture.respond 200 "{}") 3600 5184000)
      Fixture.client Fixture.background Fixture.npsso Fixture.w0
    = Some (Fail ErrCheckNPSSO, w')
    /\ trace w' = EvAuthRequest Fixture.npsso :: evs
    /\ List.length (requestsOf evs) = 1%nat.
Proof.
  eassert (Hrun : authRequest
                    (Fixture.platform (Fixture.respond 500 "")
                       (Fixture.respond 200 "tokens") (Fixture.respond 200 "{}")
                       3600 5184000)
                    Fixture.client Fixture.background Fixture.npsso Fixture.w0
                  = Some (Fail ErrCheckNPSSO, _)) by (vm_compute; reflexivity).
  destruct (authRequest_round_trips _ _ _ _ _ _ _ Hrun) as (evs & Htr & _ & _).
  eexists _, evs. split; [exact Hrun |]. split; [exact Htr |].
  cbn [trace Fixture.w0 app] in Htr. injection Htr as <-. reflexivity.
Defined.

(** X3. When the transport fails on the authorization request, the
    exchange returns the send error around the transport's error and
    stops: the context is not asked and no token request is made. The
    same holds in the token step for the token request. *)
Theorem authRequest_transport_failure (P : Platform) (c : Client) (ctx : Context)
    (npsso : string) (w : World) (l : loc) (hc : HttpClient) :
  httpClient c = Some l ->
  heap w !! l = Some hc ->
  (npsso <> ""%string ->
   (exists u, url_Parse P (authURL P) = Ok u) ->
   forall e,
     http_Do P hc (trace w ++ [EvAuthRequest npsso]) (authorizeRequest P npsso) = Fail e ->
     authRequest P c ctx npsso w
     = Some (Fail (ErrSendingRequest e),
             mkWorld (heap w)
               (trace w ++ [EvAuthRequest npsso;
                            EvDo (authorizeRequest P npsso) (Fail e)])))
  /\ ((exists u, url_Parse P tokenURL = Ok u) ->
      forall code e,
        http_Do P hc (trace w) (tokenRequest P code) = Fail e ->
        tokenStep P c ctx code w
        = Some (Fail (ErrSendingTokenRequest e),
                mkWorld (heap w) (trace w ++ [EvDo (tokenRequest P code) (Fail e)]))).
Proof.
  intros Hc Hl. split.
  - intros Hnpsso [u Hurl] e Hdo.
    apply String.eqb_neq in Hnpsso.
    unfold authRequest, http_NewRequestWithContext.
    rewrite Hnpsso, Hurl, authorizeRequest_built.
    unfold bind at 1. unfold emit. unfold bind at 1.
    erewrite clientDo_run; [| exact Hc | exact Hl]. cbn [heap trace].
    rewrite Hdo. unfold ret. rewrite <- app_assoc. reflexivity.
  - intros [u Hurl] code e Hdo.
    unfold tokenStep, http_NewRequestWithContext.
    rewrite Hurl, tokenRequest_built.
    unfold bind at 1.
    erewrite clientDo_run; [| exact Hc | exact Hl].
    rewrite Hdo. reflexivity.
Qed.

Lemma authRequest_transport_failure_witness :
  authRequest (Fixture.platform (Fail (ErrExternal "dial tcp: timeout"))
                 (Fixture.respond 200 "tokens") (Fixture.respond 200 "{}") 3600 5184000)
    Fixture.client Fixture.cancelled Fixture.npsso Fixture.w0
  = Some (Fail (ErrSendingRequest (ErrExternal "dial tcp: timeout")),
          mkWorld (heap Fixture.w0)
            [EvAuthRequest Fixture.npsso;
             EvDo (authorizeRequest
                     (Fixture.platform (Fail (ErrExternal "dial tcp: timeout"))
                        (Fixture.respond 200 "tokens") (Fixture.respond 200 "{}")
                        3600 5184000) Fixture.npsso)
                  (Fail (ErrExternal "dial tcp: timeout"))]).
Proof.
  destruct (authRequest_transport_failure
              (Fixture.platform (Fail (ErrExternal "dial tcp: timeout"))
                 (Fixture.respond 200 "tokens") (Fixture.respond 200 "{}") 3600 5184000)
              Fixture.client Fixture.cancelled Fixture.npsso Fixture.w0
              1%positive Fixture.defaultClient eq_refl eq_refl) as (H & _).
  apply H.
  - discriminate.
  - eexists. reflexivity.
  - reflexivity.
Defined.

(** X4. On a clock that does not go back between two readings, and
    for lifetimes of at most 9223372036 seconds in absolute value, a
    refresh lifetime that is not shorter than the access lifetime gives
    a refresh expiry that is not before the access expiry. *)
Theorem authRequest_expiry_order (P : Platform) (c : Client) (ctx : Context)
    (npsso : string) (w w' : World) (t : Tokens) :
  monotone P ->
  authRequest P c ctx npsso w = Some (Ok t, w') ->
  -9223372036 <= AccessExpires t <= 9223372036 ->
  -9223372036 <= RefreshExpires t <= 9223372036 ->
  AccessExpires t <= RefreshExpires t ->
  AccessExpiresTime t <= RefreshExpiresTime t.
Proof.
  intros Hmono Hrun Ha Hr Hle.
  destruct (authRequest_Ok_inv P _ _ _ _ _ _ Hrun)
    as (resp & u & tokenResp & body & decoded & t1 & t2 & H).
  cbv zeta in H. destruct H as (_ & _ & _ & _ & _ & _ & _ & _ & Ht1 & Ht2 & Ht).
  assert (H12 : t1 <= t2) by (rewrite Ht2, Ht1; apply Hmono).
  subst t. cbn [AccessExpires RefreshExpires AccessExpiresTime RefreshExpiresTime] in *.
  pose proof (seconds_exact _ Ha) as Ea. pose proof (seconds_exact _ Hr) as Er.
  unfold Duration_mul, time_Second in Ea, Er. rewrite Ea, Er. lia.
Qed.

Lemma fixture_monotone (authorize token resource : result Response) (expires refresh : Z) :
  monotone (Fixture.platform authorize token resource expires refresh).
Proof.
  intros tr. cbn [time_Now Fixture.platform]. unfold Fixture.clock.
  rewrite List.length_app. cbn [List.length]. lia.
Qed.

Lemma authRequest_expiry_order_witness :
  exists t w',
    authRequest (Fixture.good (Fixture.respond 200 "{}")) Fixture.client
      Fixture.background Fixture.npsso Fixture.w0 = Some (Ok t, w')
    /\ AccessExpiresTime t <= RefreshExpiresTime t.
Proof.
  eassert (Hrun : authRequest (Fixture.good (Fixture.respond 200 "{}")) Fixture.client
                    Fixture.background Fixture.npsso Fixture.w0
                  = Some (Ok _, _)) by (vm_compute; reflexivity).
  eexists _, _. split; [exact Hrun |].
  apply (authRequest_expiry_order _ _ _ _ _ _ _ (fixture_monotone _ _ _ _ _) Hrun).
  - cbn. lia.
  - cbn. lia.
  - cbn. lia.
Defined.

(** ** Protected calls: what is sent *)

Lemma resourceRequest_bearer (url accessToken : string) (lang : Language) :
  isBearer (resourceRequest url accessToken lang) = true.
Proof.
  unfold isBearer, resourceRequest. cbn. destruct accessToken; reflexivity.
Qed.

Lemma exchange_requests_not_bearer (evs : list Event) :
  forallb isExchangeEvent evs = true ->
  List.filter isBearer (requestsOf evs) = [].
Proof.
  induction evs as [| e evs IH]; [reflexivity |].
  cbn [forallb]. intros H. apply andb_true_iff in H as [He Hevs].
  destruct e; cbn [requestsOf List.filter]; try (apply IH; assumption).
  cbn [isExchangeEvent] in He. apply negb_true_iff in He. rewrite He.
  apply IH; assumption.
Qed.

Section DispatchMore.

Context (P : Platform).

(** What the dispatch sends: nothing when the URL does not parse,
    otherwise the protected GET, once. It never asks the context. *)
Lemma dispatch_requests (c : ClientAPI) (ctx : Context) (url : string)
    (w w' : World) (r : result string) (tokens : Tokens) :
  Tokens_ c = Some tokens ->
  dispatch P c ctx url w = Some (r, w') ->
  exists evs,
    trace w' = trace w ++ evs
    /\ (requestsOf evs = [] /\ (exists e, url_Parse P url = Fail e
                                         /\ r = Fail (ErrCreatingRequest e))
        \/ (exists u, url_Parse P url = Ok u)
           /\ requestsOf evs
              = [resourceRequest url (AccessToken tokens) (lang (Client_ c))])
    /\ (forall e, ~ In (EvCtxErr e) evs).
Proof.
  intros Htok H.
  unfold dispatch, clientDo, deref, http_NewRequestWithContext, bind, emit, ret in H.
  rewrite Htok in H. cbn [heap trace] in H.
  run_cases H; injection H as <- <-;
    repeat match goal with
           | E : Ok _ = Ok _ |- _ => injection E as <-
           | E : Fail _ = Fail _ |- _ => injection E as <-
           | E : (_, _) = (_, _) |- _ => injection E as <- <-
           | E : negb _ = true |- _ => apply negb_true_iff in E
           | E : negb _ = false |- _ => apply negb_false_iff in E
           end;
    trace_norm.
  all: try (exists []; rewrite app_nil_r; split; [reflexivity |];
            split; [left; split; [reflexivity | eauto] | intros ? []]).
  all: eexists; split; [reflexivity |]; split;
    [right; split; [eauto |]; cbn [requestsOf]; unfold resourceRequest;
     match goal with E : String.eqb _ _ = _ |- _ => rewrite E end; reflexivity
    | intros e0 Hin; cbn [In] in Hin;
      repeat (destruct Hin as [E | Hin]; [discriminate E |]); destruct Hin].
Qed.

(** The requests of a protected call: those of the exchange, if any,
    then the protected GET, if any. *)
Lemma request_requests (c : ClientAPI) (ctx : Context) (url : string)
    (w w' : World) (r : result string) (c' : ClientAPI) :
  request P c ctx url w = Some ((r, c'), w') ->
  exists evs reqsA reqsD,
    trace w' = trace w ++ evs
    /\ requestsOf evs = reqsA ++ reqsD
    /\ (List.length reqsA <= 2)%nat
    /\ List.filter isBearer reqsA = []
    /\ (reqsD = []
        \/ exists tokens, Tokens_ c' = Some tokens
             /\ reqsD = [resourceRequest url (AccessToken tokens) (lang (Client_ c'))]).
Proof.
  intros H. apply request_inv in H.
  destruct H as [(-> & -> & -> & _) | (tokens & Htok & _ & H)].
  { exists [], [], []. rewrite app_nil_r. cbn. auto 6. }
  cbv zeta in H.
  destruct H as [(_ & -> & Hd) | (_ & ra & w2 & Hauth & H)].
  - destruct (dispatch_requests _ _ _ _ _ _ _ Htok Hd) as (evD & Htr & HreqD & _).
    cbn [trace] in Htr.
    exists (EvNow (time_Now P (trace w)) :: evD), [], (requestsOf evD).
    split; [rewrite Htr, <- app_assoc; reflexivity |].
    split; [reflexivity |]. split; [cbn; lia |]. split; [reflexivity |].
    destruct HreqD as [(-> & _) | (_ & ->)]; [left; reflexivity | right; eauto].
  - destruct (authRequest_events P _ _ _ _ _ _ Hauth) as (_ & evA & Htr & HevA).
    destruct (authRequest_shape P _ _ _ _ _ _ Hauth) as (evA' & Htr' & HreqA & _).
    rewrite Htr in Htr'. apply app_inv_head in Htr'. injection Htr' as <-.
    cbn [trace] in Htr.
    assert (HlenA : (List.length (requestsOf evA) <= 2)%nat).
    { destruct HreqA as [-> | [-> | (code & ->)]]; cbn; lia. }
    pose proof (exchange_requests_not_bearer _ HevA) as HnbA.
    destruct ra as [newTokens | e].
    + destruct H as (-> & Hd).
      destruct (dispatch_requests (setTokens c newTokens) _ _ _ _ _ newTokens eq_refl Hd)
        as (evD & HtrD & HreqD & _).
      exists (EvNow (time_Now P (trace w)) :: EvAuthRequest (NPSSO c) :: evA ++ evD),
        (requestsOf evA), (requestsOf evD).
      split; [rewrite HtrD, Htr; repeat rewrite <- app_assoc; reflexivity |].
      split; [cbn [requestsOf]; apply requestsOf_app |].
      split; [exact HlenA |]. split; [exact HnbA |].
      destruct HreqD as [(-> & _) | (_ & ->)]; [left; reflexivity | right].
      exists newTokens. split; reflexivity.
    + destruct H as (-> & -> & ->).
      exists (EvNow (time_Now P (trace w)) :: EvAuthRequest (NPSSO c) :: evA),
        (requestsOf evA), [].
      split; [rewrite Htr, <- app_assoc; reflexivity |].
      split; [cbn [requestsOf]; rewrite app_nil_r; reflexivity |].
      split; [exact HlenA |]. split; [exact HnbA |]. left; reflexivity.
Qed.

End DispatchMore.

(** X5. There is no retry: a protected call makes at most one
    protected GET, whatever the answer (429 and 5xx included), and at
    most three round trips in all, the two of a refresh and the GET. *)
Theorem request_no_retry (P : Platform) (c : ClientAPI) (ctx : Context) (url : string)
    (w w' : World) (r : result string) (c' : ClientAPI) (evs : list Event) :
  request P c ctx url w = Some ((r, c'), w') ->
  trace w' = trace w ++ evs ->
  (List.length (List.filter isBearer (requestsOf evs)) <= 1)%nat
  /\ (List.length (requestsOf evs) <= 3)%nat.
Proof.
  intros Hrun Htr.
  destruct (request_requests P _ _ _ _ _ _ _ Hrun)
    as (evs' & reqsA & reqsD & Htr' & Hreqs & Hlen & Hnb & HD).
  rewrite Htr in Htr'. apply app_inv_head in Htr'. subst evs'.
  rewrite Hreqs, List.filter_app, Hnb, !List.length_app. cbn [app].
  destruct HD as [-> | (tokens & _ & ->)]; cbn [List.filter List.length].
  - lia.
  - rewrite resourceRequest_bearer. cbn [List.length]. lia.
Qed.

Lemma request_no_retry_witness :
  exists c' w',
    request (Fixture.good (Fixture.respond 429 "slow down")) Fixture.expired
      Fixture.background Fixture.url Fixture.w0
    = Some ((Fail ErrRateLimit, c'), w')
    /\ (List.length (List.filter isBearer (requestsOf (trace w'))) <= 1)%nat
    /\ (List.length (requestsOf (trace w')) <= 3)%nat.
Proof.
  eassert (Hrun : request (Fixture.good (Fixture.respond 429 "slow down"))
                    Fixture.expired Fixture.background Fixture.url Fixture.w0
                  = Some ((Fail ErrRateLimit, _), _)) by (vm_compute; reflexivity).
  eexists _, _. split; [exact Hrun |].
  exact (request_no_retry _ _ _ _ _ _ _ _ _ Hrun eq_refl).
Defined.



(** X7. A refresh that succeeded is kept whatever becomes of the GET:
    when the access token had expired and the exchange gave new tokens,
    the session holds them after the call, also when the call itself
    fails (a URL that does not parse, a transport error, a 404, ...). *)
Theorem request_keeps_refreshed_tokens (P : Platform) (c : ClientAPI) (ctx : Context)
    (url : string) (w w2 w' : World) (tokens newTokens : Tokens)
    (r : result string) (c' : ClientAPI) :
  Tokens_ c = Some tokens ->
  AccessToken tokens <> ""%string ->
  AccessExpiresTime tokens < time_Now P (trace w) ->
  authRequest P (Client_ c) ctx (NPSSO c)
    (mkWorld (heap w) (trace w ++ [EvNow (time_Now P (trace w))]))
  = Some (Ok newTokens, w2) ->
  request P c ctx url w = Some ((r, c'), w') ->
  c' = setTokens c newTokens
  /\ dispatch P (setTokens c newTokens) ctx url w2 = Some (r, w').
Proof.
  intros Htok Hne Hlt Hauth Hrun.
  apply request_inv in Hrun.
  destruct Hrun as [(_ & _ & _ & [Hnil | (t0 & Ht0 & Hempty)]) | (t0 & Ht0 & _ & H)].
  - congruence.
  - congruence.
  - cbv zeta in H. rewrite Htok in Ht0. injection Ht0 as <-.
    apply Z.ltb_lt in Hlt. unfold Time_Before in H.
    destruct H as [(Hnot & _) | (_ & ra & w3 & Hauth' & H)]; [congruence |].
    rewrite Hauth in Hauth'. injection Hauth' as <- <-. exact H.
Qed.

Lemma request_keeps_refreshed_tokens_witness :
  exists c' w',
    request (Fixture.good (Fixture.respond 404 "gone")) Fixture.expired
      Fixture.background Fixture.url Fixture.w0
    = Some ((Fail (ErrNotFound Fixture.url), c'), w')
    /\ option_map AccessToken (Tokens_ c') = Some "A"%string.
Proof.
  eassert (Hrun : request (Fixture.good (Fixture.respond 404 "gone"))
                    Fixture.expired Fixture.background Fixture.url Fixture.w0
                  = Some ((Fail _, _), _)) by (vm_compute; reflexivity).
  edestruct (request_keeps_refreshed_tokens (Fixture.good (Fixture.respond 404 "gone"))
               Fixture.expired Fixture.background Fixture.url Fixture.w0) as (Hc & _).
  - reflexivity.
  - discriminate.
  - reflexivity.
  - vm_compute. reflexivity.
  - exact Hrun.
  - eexists _, _. split; [exact Hrun |]. reflexivity.
Defined.

(** X8. A protected call never changes the credential or the client
    of the session, and never writes to an [http.Client]. *)
Theorem request_preserves_identity (P : Platform) (c : ClientAPI) (ctx : Context)
    (url : string) (w w' : World) (r : result string) (c' : ClientAPI) :
  request P c ctx url w = Some ((r, c'), w') ->
  NPSSO c' = NPSSO c /\ Client_ c' = Client_ c /\ heap w' = heap w.
Proof.
  intros Hrun.
  destruct (request_trace P _ _ _ _ _ _ _ Hrun) as (Hh & _).
  apply request_inv in Hrun.
  destruct Hrun as [(_ & -> & _) | (tokens & _ & _ & H)]; [auto |].
  cbv zeta in H.
  destruct H as [(_ & -> & _) | (_ & ra & w2 & _ & H)]; [auto |].
  destruct ra as [newTokens | e].
  - destruct H as (-> & _). auto.
  - destruct H as (_ & -> & _). auto.
Qed.

Lemma request_preserves_identity_witness :
  exists r c' w',
    request (Fixture.good (Fixture.respond 200 "{}")) Fixture.expired
      Fixture.background Fixture.url Fixture.w0 = Some ((r, c'), w')
    /\ NPSSO c' = Fixture.npsso /\ Client_ c' = Fixture.client
    /\ heap w' = heap Fixture.w0.
Proof.
  eassert (Hrun : request (Fixture.good (Fixture.respond 200 "{}"))
                    Fixture.expired Fixture.background Fixture.url Fixture.w0
                  = Some ((_, _), _)) by (vm_compute; reflexivity).
  eexists _, _, _. split; [exact Hrun |].
  exact (request_preserves_identity _ _ _ _ _ _ _ _ Hrun).
Defined.

(** X9. With a URL that does not parse, a protected call sends no
    protected GET and fails; but the URL is looked at only after the
    refresh, so the failure is the validation error, the refresh error,
    or, the refresh done or not needed, the request-creation error. *)
Theorem request_bad_url (P : Platform) (c : ClientAPI) (ctx : Context) (url : string)
    (w w' : World) (r : result string) (c' : ClientAPI) (evs : list Event) (e : error) :
  url_Parse P url = Fail e ->
  request P c ctx url w = Some ((r, c'), w') ->
  trace w' = trace w ++ evs ->
  List.filter isBearer (requestsOf evs) = []
  /\ (r = Fail ErrInvalidTokens
      \/ r = Fail (ErrCreatingRequest e)
      \/ exists e', r = Fail (ErrRefreshingTokens e')).
Proof.
  intros Hurl Hrun Htr.
  assert (Hd : forall c0 tokens0 w0 w1 r0,
             Tokens_ c0 = Some tokens0 ->
             dispatch P c0 ctx url w0 = Some (r0, w1) ->
             r0 = Fail (ErrCreatingRequest e) /\ exists evD, trace w1 = trace w0 ++ evD
                                                   /\ requestsOf evD = []).
  { intros c0 tokens0 w0 w1 r0 Ht0 Hdis.
    destruct (dispatch_requests P _ _ _ _ _ _ _ Ht0 Hdis) as (evD & HtrD & Hreq & _).
    destruct Hreq as [(Hnil & e' & Hurl' & ->) | ((u & Hurl') & _)]; [| congruence].
    rewrite Hurl in Hurl'. injection Hurl' as <-. eauto. }
  apply request_inv in Hrun.
  destruct Hrun as [(-> & -> & -> & _) | (tokens & Htok & _ & H)].
  { rewrite <- (app_nil_r (trace w)) in Htr at 1. apply app_inv_head in Htr.
    subst evs. auto. }
  cbv zeta in H.
  destruct H as [(_ & -> & Hdis) | (_ & ra & w2 & Hauth & H)].
  - destruct (Hd _ _ _ _ _ Htok Hdis) as (-> & evD & HtrD & HreqD).
    cbn [trace] in HtrD. rewrite HtrD, <- app_assoc in Htr.
    apply app_inv_head in Htr. subst evs. cbn [app requestsOf].
    rewrite HreqD. auto.
  - destruct (authRequest_events P _ _ _ _ _ _ Hauth) as (_ & evA & HtrA & HevA).
    cbn [trace] in HtrA.
    pose proof (exchange_requests_not_bearer _ HevA) as HnbA.
    destruct ra as [newTokens | e'].
    + destruct H as (-> & Hdis).
      destruct (Hd (setTokens c newTokens) newTokens _ _ _ eq_refl Hdis)
        as (-> & evD & HtrD & HreqD).
      rewrite HtrD, HtrA in Htr. repeat rewrite <- app_assoc in Htr.
      apply app_inv_head in Htr. subst evs.
      cbn [app requestsOf]. rewrite requestsOf_app, HreqD, app_nil_r. auto.
    + destruct H as (-> & -> & ->).
      rewrite HtrA, <- app_assoc in Htr. apply app_inv_head in Htr. subst evs.
      cbn [app requestsOf]. eauto.
Qed.

Lemma request_bad_url_witness :
  exists c' w',
    request (Fixture.good (Fixture.respond 200 "{}")) Fixture.expired
      Fixture.background "%zz" Fixture.w0
    = Some ((Fail (ErrCreatingRequest (ErrExternal "invalid URL escape %zz")), c'), w')
    /\ List.filter isBearer (requestsOf (trace w')) = []
    /\ List.length (requestsOf (trace w')) = 2%nat.
Proof.
  eassert (Hrun : request (Fixture.good (Fixture.respond 200 "{}"))
                    Fixture.expired Fixture.background "%zz" Fixture.w0
                  = Some ((Fail _, _), _)) by (vm_compute; reflexivity).
  edestruct (request_bad_url (Fixture.good (Fixture.respond 200 "{}")) Fixture.expired
               Fixture.background "%zz" Fixture.w0) as (Hnb & _).
  - reflexivity.
  - exact Hrun.
  - reflexivity.
  - eexists _, _. split; [exact Hrun |]. split; [exact Hnb | reflexivity].
Defined.

(** X10. The access token a refresh brings is not looked at: when it
    is empty, the session takes it all the same, the protected GET
    leaves with an empty bearer token, and from then on every protected
    call on the session fails with the validation error without a new
    exchange. *)
Theorem request_empty_refreshed_token (P : Platform) (c : ClientAPI) (ctx : Context)
    (url : string) (w w2 w' : World) (tokens newTokens : Tokens)
    (r : result string) (c' : ClientAPI) :
  Tokens_ c = Some tokens ->
  AccessToken tokens <> ""%string ->
  AccessExpiresTime tokens < time_Now P (trace w) ->
  authRequest P (Client_ c) ctx (NPSSO c)
    (mkWorld (heap w) (trace w ++ [EvNow (time_Now P (trace w))]))
  = Some (Ok newTokens, w2) ->
  AccessToken newTokens = ""%string ->
  request P c ctx url w = Some ((r, c'), w') ->
  (forall evs req,
      trace w' = trace w ++ evs -> In req (requestsOf evs) -> isBearer req = true ->
      Header_Get (ReqHeader req) "Authorization" = "Bearer "%string)
  /\ (forall ctx2 url2 w3,
         request P c' ctx2 url2 w3 = Some ((Fail ErrInvalidTokens, c'), w3)).
Proof.
  intros Htok Hne Hlt Hauth Hempty Hrun.
  assert (Hc' : c' = setTokens c newTokens).
  { pose proof Hrun as Hrun'. apply request_inv in Hrun'.
    destruct Hrun' as [(_ & _ & _ & [Hnil | (t0 & Ht0 & He0)]) | (t0 & Ht0 & _ & H)];
      try congruence.
    cbv zeta in H. rewrite Htok in Ht0. injection Ht0 as <-.
    apply Z.ltb_lt in Hlt. unfold Time_Before in H.
    destruct H as [(Hnot & _) | (_ & ra & w3 & Hauth' & H)]; [congruence |].
    rewrite Hauth in Hauth'. injection Hauth' as <- <-. destruct H as (-> & _).
    reflexivity. }
  split.
  - intros evs req Htr Hin Hb.
    destruct (request_requests P _ _ _ _ _ _ _ Hrun)
      as (evs' & reqsA & reqsD & Htr' & Hreqs & _ & Hnb & HD).
    rewrite Htr in Htr'. apply app_inv_head in Htr'. subst evs'.
    rewrite Hreqs in Hin. apply in_app_or in Hin as [Hin | Hin].
    + assert (Hf : In req (List.filter isBearer reqsA))
        by (apply List.filter_In; split; assumption).
      rewrite Hnb in Hf. destruct Hf.
    + destruct HD as [-> | (t1 & Ht1 & ->)]; [destruct Hin |].
      destruct Hin as [<- | []].
      rewrite Hc' in Ht1. cbn [setTokens Tokens_] in Ht1. injection Ht1 as <-.
      rewrite Hempty. reflexivity.
  - intros ctx2 url2 w3. subst c'. unfold request. cbn [setTokens Tokens_].
    rewrite Hempty. reflexivity.
Qed.

Lemma request_empty_refreshed_token_witness :
  exists r c' w',
    request Scenario.emptyToken Fixture.expired Fixture.background Fixture.url Fixture.w0
    = Some ((r, c'), w')
    /\ option_map AccessToken (Tokens_ c') = Some ""%string
    /\ request Scenario.emptyToken c' Fixture.background Fixture.url w'
       = Some ((Fail ErrInvalidTokens, c'), w').
Proof.
  eassert (Hrun : request Scenario.emptyToken Fixture.expired Fixture.background
                    Fixture.url Fixture.w0
                  = Some ((_, _), _)) by (vm_compute; reflexivity).
  edestruct (request_empty_refreshed_token Scenario.emptyToken Fixture.expired
               Fixture.background Fixture.url Fixture.w0) as (_ & Hdead).
  - reflexivity.
  - discriminate.
  - reflexivity.
  - vm_compute. reflexivity.
  - reflexivity.
  - exact Hrun.
  - eexists _, _, _. split; [exact Hrun |]. split; [reflexivity |]. apply Hdead.
Defined.

(** [request], with its binds written out. *)
Lemma request_unfold (P : Platform) (c : ClientAPI) (ctx : Context) (url : string)
    (w : World) :
  request P c ctx url w =
  match Tokens_ c with
  | None => Some ((Fail ErrInvalidTokens, c), w)
  | Some tokens =>
    if String.eqb (AccessToken tokens) "" then Some ((Fail ErrInvalidTokens, c), w)
    else
      let t := time_Now P (trace w) in
      let w1 := mkWorld (heap w) (trace w ++ [EvNow t]) in
      if Time_Before (AccessExpiresTime tokens) t then
        match authRequest P (Client_ c) ctx (NPSSO c) w1 with
        | None => None
        | Some (Fail e, w2) => Some ((Fail (ErrRefreshingTokens e), c), w2)
        | Some (Ok newTokens, w2) =>
          match dispatch P (setTokens c newTokens) ctx url w2 with
          | None => None
          | Some (b, w3) => Some ((b, setTokens c newTokens), w3)
          end
        end
      else
        match dispatch P c ctx url w1 with
        | None => None
        | Some (b, w3) => Some ((b, c), w3)
        end
  end.
Proof.
  unfold request, bind, now, ret.
  destruct (Tokens_ c) as [tokens |]; [| reflexivity].
  destruct (String.eqb (AccessToken tokens) ""); [reflexivity |].
  cbv zeta. destruct (Time_Before _ _).
  - destruct (authRequest P _ _ _ _) as [[[nt | e] w2] |]; reflexivity.
  - reflexivity.
Qed.

(** X11. The region of the client has no effect: the exchange does not
    depend on the language or the region, and a protected call gives
    the same result, the same tokens and the same world for two clients
    that differ in their region only. *)
Theorem region_has_no_effect (P : Platform) (h : option loc) (l : Language)
    (r1 r2 : Region) (tokens : option Tokens) (npsso : string) (ctx : Context)
    (url : string) (w : World) :
  (forall l', authRequest P (mkClient h l r1) ctx npsso w
              = authRequest P (mkClient h l' r2) ctx npsso w)
  /\ option_map (fun x => (fst (fst x), Tokens_ (snd (fst x)), snd x))
       (request P (mkClientAPI (mkClient h l r1) tokens npsso) ctx url w)
     = option_map (fun x => (fst (fst x), Tokens_ (snd (fst x)), snd x))
         (request P (mkClientAPI (mkClient h l r2) tokens npsso) ctx url w).
Proof.
  split; [intros l'; reflexivity |].
  rewrite !request_unfold. cbn [Tokens_ Client_ NPSSO].
  destruct tokens as [t |]; [| reflexivity].
  destruct (String.eqb (AccessToken t) ""); [reflexivity |].
  cbv zeta. destruct (Time_Before _ _).
  - change (authRequest P (mkClient h l r2)) with (authRequest P (mkClient h l r1)).
    destruct (authRequest P (mkClient h l r1) ctx npsso _) as [[[nt | e] w2] |];
      try reflexivity.
    change (dispatch P (setTokens (mkClientAPI (mkClient h l r2) (Some t) npsso) nt))
      with (dispatch P (setTokens (mkClientAPI (mkClient h l r1) (Some t) npsso) nt)).
    destruct (dispatch P _ ctx url w2) as [[b w3] |]; reflexivity.
  - change (dispatch P (mkClientAPI (mkClient h l r2) (Some t) npsso))
      with (dispatch P (mkClientAPI (mkClient h l r1) (Some t) npsso)).
    destruct (dispatch P _ ctx url _) as [[b w3] |]; reflexivity.
Qed.

Example region_run :
  option_map (fun x => fst (fst x))
    (request (Fixture.good (Fixture.respond 200 "{}"))
       (mkClientAPI Scenario.clientFR (Tokens_ Fixture.valid) Fixture.npsso)
       Fixture.background Fixture.url Fixture.w0)
  = option_map (fun x => fst (fst x))
      (request (Fixture.good (Fixture.respond 200 "{}")) Fixture.valid
         Fixture.background Fixture.url Fixture.w0).
Proof. vm_compute. reflexivity. Qed.

(** ** Decoding layer and queries *)

Lemma handleStatus_Ok_inv (url : string) (s : Z) (body b : string) :
  handleStatus url s body = Ok b -> (s = 200 \/ s = 401 \/ s = 403) /\ b = body.
Proof.
  unfold handleStatus, http_StatusOK, http_StatusUnauthorized, http_StatusForbidden,
    http_StatusNotFound, http_StatusTooManyRequests.
  destruct (Z.eqb_spec s 200); [intros E; injection E as <-; auto |].
  destruct (Z.eqb_spec s 401); [intros E; injection E as <-; auto |].
  destruct (Z.eqb_spec s 403); [intros E; injection E as <-; auto |].
  destruct (s =? 404); [discriminate |].
  destruct (s =? 429); discriminate.
Qed.

Section Decoding.

Context (P : Platform).

(** The dispatch, once the server has answered the protected GET and
    the body was read. *)
Lemma dispatch_answered (c : ClientAPI) (ctx : Context) (url : string) (w : World)
    (tokens : Tokens) (l : loc) (hc : HttpClient) (resp : Response) (body : string) :
  Tokens_ c = Some tokens ->
  (exists u, url_Parse P url = Ok u) ->
  httpClient (Client_ c) = Some l ->
  heap w !! l = Some hc ->
  let req := resourceRequest url (AccessToken tokens) (lang (Client_ c)) in
  http_Do P hc (trace w) req = Ok resp ->
  Body resp = Ok body ->
  dispatch P c ctx url w
  = Some (handleStatus url (StatusCode resp) body,
          mkWorld (heap w)
            (trace w ++ EvDo req (Ok resp)
               :: (if CloseFails resp then [EvPrintln "Error closing body"] else []))).
Proof.
  intros Htok [u Hurl] Hc Hl req Hdo Hbody.
  unfold dispatch, http_NewRequestWithContext. rewrite Hurl, Htok.
  cbv beta iota zeta.
  assert (Hreq : (if negb (String.eqb (lang (Client_ c)) "")
                  then Request_Header_Set
                         (Request_Header_Set
                            (Request_Header_Set (mkRequest "GET" url [] "")
                               "Authorization" ("Bearer " ++ AccessToken tokens)%string)
                            "Accept" "application/json")
                         "Accept-Language" (lang (Client_ c))
                  else Request_Header_Set
                         (Request_Header_Set (mkRequest "GET" url [] "")
                            "Authorization" ("Bearer " ++ AccessToken tokens)%string)
                         "Accept" "application/json") = req).
  { subst req. unfold resourceRequest.
    destruct (String.eqb (lang (Client_ c)) ""); reflexivity. }
  rewrite Hreq. unfold bind at 1.
  erewrite clientDo_run; [| exact Hc | exact Hl].
  rewrite Hdo, Hbody. unfold bind, emit, ret. cbn [heap trace].
  destruct (CloseFails resp); cbn [heap trace]; rewrite <- ?app_assoc; reflexivity.
Qed.

(** A body comes out of the dispatch only as the body of an answer
    with status 200, 401 or 403 to the protected GET. *)
Lemma dispatch_Ok_inv (c : ClientAPI) (ctx : Context) (url : string)
    (w w' : World) (tokens : Tokens) (body : string) :
  Tokens_ c = Some tokens ->
  dispatch P c ctx url w = Some (Ok body, w') ->
  exists resp,
    trace w' = trace w
               ++ EvDo (resourceRequest url (AccessToken tokens) (lang (Client_ c)))
                       (Ok resp)
                  :: (if CloseFails resp then [EvPrintln "Error closing body"] else [])
    /\ (StatusCode resp = 200 \/ StatusCode resp = 401 \/ StatusCode resp = 403)
    /\ Body resp = Ok body.
Proof.
  intros Htok H.
  unfold dispatch, clientDo, deref, http_NewRequestWithContext, bind, emit, ret in H.
  rewrite Htok in H. cbn [heap trace] in H.
  run_cases H; injection H as E <-; try discriminate E;
    repeat match goal with
           | E : Ok _ = Ok _ |- _ => injection E as <-
           | E : (_, _) = (_, _) |- _ => injection E as <- <-
           | E : negb _ = true |- _ => apply negb_true_iff in E
           | E : negb _ = false |- _ => apply negb_false_iff in E
           end;
    apply handleStatus_Ok_inv in E as (Hst & ->);
    eexists; (split; [| split; [exact Hst | eassumption]]);
    trace_norm; unfold resourceRequest;
    match goal with E : String.eqb _ _ = _ |- _ => rewrite E end;
    match goal with E : CloseFails _ = _ |- _ => rewrite E end;
    reflexivity.
Qed.

(** The same for a protected call: the GET carries the token the
    session holds afterwards. *)
Lemma request_Ok_inv (c : ClientAPI) (ctx : Context) (url : string)
    (w w' : World) (c' : ClientAPI) (body : string) :
  request P c ctx url w = Some ((Ok body, c'), w') ->
  exists evs0 tokens resp,
    Tokens_ c' = Some tokens
    /\ trace w' = trace w ++ evs0
                  ++ EvDo (resourceRequest url (AccessToken tokens) (lang (Client_ c')))
                          (Ok resp)
                     :: (if CloseFails resp then [EvPrintln "Error closing body"] else [])
    /\ (StatusCode resp = 200 \/ StatusCode resp = 401 \/ StatusCode resp = 403)
    /\ Body resp = Ok body.
Proof.
  intros H. apply request_inv in H.
  destruct H as [(E & _) | (tokens & Htok & _ & H)]; [discriminate E |].
  cbv zeta in H.
  destruct H as [(_ & -> & Hd) | (_ & ra & w2 & Hauth & H)].
  - destruct (dispatch_Ok_inv _ _ _ _ _ _ _ Htok Hd) as (resp & Htr & Hst & Hb).
    exists [EvNow (time_Now P (trace w))], tokens, resp.
    split; [exact Htok |]. split; [| auto].
    rewrite Htr. cbn [trace]. rewrite <- app_assoc. reflexivity.
  - destruct (authRequest_events P _ _ _ _ _ _ Hauth) as (_ & evA & HtrA & _).
    cbn [trace] in HtrA.
    destruct ra as [newTokens | e]; [| destruct H as (E & _); discriminate E].
    destruct H as (-> & Hd).
    destruct (dispatch_Ok_inv (setTokens c newTokens) _ _ _ _ newTokens _ eq_refl Hd)
      as (resp & Htr & Hst & Hb).
    exists (EvNow (time_Now P (trace w)) :: EvAuthRequest (NPSSO c) :: evA),
      newTokens, resp.
    split; [reflexivity |]. split; [| auto].
    rewrite Htr, HtrA. repeat rewrite <- app_assoc. reflexivity.
Qed.

(** A successful decoding, read backwards: the protected GET was
    answered with 200, 401 or 403 and a body whose envelope has code
    zero and which decodes into the target. *)
Lemma requestAndUnmarshal_success_inv (V : Type) (unmarshal : Unmarshaler V)
    (c : ClientAPI) (ctx : Context) (url : string) (v v' : V)
    (w w' : World) (c' : ClientAPI) :
  requestAndUnmarshal P unmarshal c ctx url v w = Some ((None, v', c'), w') ->
  exists evs req resp body requestError,
    trace w' = trace w ++ evs
    /\ In (EvDo req (Ok resp)) evs
    /\ isBearer req = true
    /\ Method req = "GET"%string
    /\ URL req = url
    /\ (StatusCode resp = 200 \/ StatusCode resp = 401 \/ StatusCode resp = 403)
    /\ Body resp = Ok body
    /\ json_Unmarshal_RequestError P body zeroRequestError = (None, requestError)
    /\ Code (Error_ requestError) = 0
    /\ unmarshal body v = (None, v').
Proof.
  intros H. unfold requestAndUnmarshal in H.
  apply bind_Some in H as ([r c0] & w0 & Hreq & H).
  destruct r as [body | e]; [| discriminate H].
  destruct (json_Unmarshal_RequestError P body zeroRequestError)
    as [[e |] requestError] eqn:Hj; [discriminate H |].
  destruct (Z.eqb_spec (Code (Error_ requestError)) 0) as [Hcode | Hcode];
    cbn [negb] in H; [| discriminate H].
  destruct (unmarshal body v) as [[e |] v0] eqn:Hu; [discriminate H |].
  injection H as <- <- <-.
  destruct (request_Ok_inv _ _ _ _ _ _ _ Hreq) as (evs0 & tokens & resp & _ & Htr & Hst & Hb).
  eexists _, (resourceRequest url (AccessToken tokens) (lang (Client_ c0))),
    resp, body, requestError.
  split; [exact Htr |].
  split; [apply in_or_app; right; left; reflexivity |].
  split; [apply resourceRequest_bearer |].
  repeat (split; [first [reflexivity | assumption] |]). exact Hu.
Qed.

End Decoding.

(** X12. The decoding layer has no effect of its own: when
    [requestAndUnmarshal] returns, the world and the session are those
    [request] leaves, it panics only if [request] does, and an error of
    [request] comes back as it is, the target untouched. *)
Theorem requestAndUnmarshal_frame (P : Platform) (V : Type) (unmarshal : Unmarshaler V)
    (c : ClientAPI) (ctx : Context) (url : string) (v : V) (w : World) :
  (requestAndUnmarshal P unmarshal c ctx url v w = None
   <-> request P c ctx url w = None)
  /\ (forall err v' c' w',
         requestAndUnmarshal P unmarshal c ctx url v w = Some ((err, v', c'), w') ->
         exists r, request P c ctx url w = Some ((r, c'), w')
                   /\ forall e, r = Fail e -> err = Some e /\ v' = v).
Proof.
  unfold requestAndUnmarshal, bind.
  destruct (request P c ctx url w) as [[[r c0] w0] |].
  2: { split; [tauto | intros ? ? ? ? E; discriminate E]. }
  split.
  - split; [| intros E; discriminate E].
    destruct r as [body | e]; [| intros E; discriminate E].
    destruct (json_Unmarshal_RequestError P body zeroRequestError) as [[e |] re];
      [intros E; discriminate E |].
    destruct (negb _); [intros E; discriminate E |].
    destruct (unmarshal body v) as [[e |] v0]; intros E; discriminate E.
  - intros err v' c' w' H. exists r.
    destruct r as [body | e].
    + destruct (json_Unmarshal_RequestError P body zeroRequestError) as [[e |] re].
      * injection H as <- <- <- <-. split; [reflexivity | intros ? E; discriminate E].
      * destruct (negb _).
        -- injection H as <- <- <- <-. split; [reflexivity | intros ? E; discriminate E].
        -- destruct (unmarshal body v) as [[e |] v0]; injection H as <- <- <- <-;
             (split; [reflexivity | intros ? E; discriminate E]).
    + injection H as <- <- <- <-. split; [reflexivity |].
      intros e0 E. injection E as <-. auto.
Qed.

(** X13. After the dispatch the status is not looked at again: an
    answer with status 401 or 403 whose body is an envelope with code
    zero and decodes into the target is a success, like a 200. *)
Theorem requestAndUnmarshal_status_blind (P : Platform) (V : Type)
    (unmarshal : Unmarshaler V) (c : ClientAPI) (ctx : Context) (url : string)
    (v v' : V) (w : World) (tokens : Tokens) (l : loc) (hc : HttpClient)
    (resp : Response) (body : string) (requestError : RequestError) :
  Tokens_ c = Some tokens ->
  AccessToken tokens <> ""%string ->
  time_Now P (trace w) <= AccessExpiresTime tokens ->
  (exists u, url_Parse P url = Ok u) ->
  httpClient (Client_ c) = Some l ->
  heap w !! l = Some hc ->
  http_Do P hc (trace w ++ [EvNow (time_Now P (trace w))])
    (resourceRequest url (AccessToken tokens) (lang (Client_ c))) = Ok resp ->
  StatusCode resp = 200 \/ StatusCode resp = 401 \/ StatusCode resp = 403 ->
  Body resp = Ok body ->
  json_Unmarshal_RequestError P body zeroRequestError = (None, requestError) ->
  Code (Error_ requestError) = 0 ->
  unmarshal body v = (None, v') ->
  exists w', requestAndUnmarshal P unmarshal c ctx url v w = Some ((None, v', c), w').
Proof.
  intros Htok Hne Hle Hurl Hc Hl Hdo Hst Hbody Hj Hcode Hu.
  apply String.eqb_neq in Hne.
  assert (Hnb : Time_Before (AccessExpiresTime tokens) (time_Now P (trace w)) = false)
    by (apply Z.ltb_ge; exact Hle).
  unfold requestAndUnmarshal, bind. rewrite request_unfold, Htok, Hne.
  cbv zeta. rewrite Hnb.
  erewrite (dispatch_answered P c ctx url _ tokens l hc resp body Htok Hurl Hc);
    [| exact Hl | exact Hdo | exact Hbody].
  rewrite (proj1 (handleStatus_spec url _ body) Hst), Hj, Hcode, Hu.
  cbn [Z.eqb negb]. eexists. reflexivity.
Qed.

Lemma requestAndUnmarshal_status_blind_witness :
  exists w',
    requestAndUnmarshal (Fixture.good (Fixture.respond 401 "half a profile"))
      Fixture.unmarshalText Fixture.valid Fixture.background Fixture.url
      "untouched"%string Fixture.w0
    = Some ((None, "half a profile"%string, Fixture.valid), w').
Proof.
  apply (requestAndUnmarshal_status_blind
           (Fixture.good (Fixture.respond 401 "half a profile")) string
           Fixture.unmarshalText Fixture.valid Fixture.background Fixture.url
           "untouched"%string "half a profile"%string Fixture.w0
           (mkTokens "cur" "B" 3600 5184000 1800000000000000000 1800000000000000000)
           1%positive Fixture.defaultClient
           (mkResponse 401 [] (Ok "half a profile"%string) false)
           "half a profile"%string zeroRequestError).
  - reflexivity.
  - discriminate.
  - cbn. unfold Fixture.clock. cbn. lia.
  - eexists. reflexivity.
  - reflexivity.
  - reflexivity.
  - reflexivity.
  - right; left; reflexivity.
  - reflexivity.
  - reflexivity.
  - reflexivity.
  - reflexivity.
Defined.

(** X14. When one of the three queries returns a response, the trace
    of the call holds an answer to a protected GET of the query's URL
    (the account or online id spliced in as it is, ten titles asked for
    the games), with status 200, 401 or 403, whose body decodes from
    the zero value of the response shape to the response returned. *)
Theorem queries_success (P : Platform) :
  (forall unmarshal c ctx onlineId w v c' w',
      GetUserAccountId P unmarshal c ctx onlineId w = Some ((Ok v, c'), w') ->
      exists evs,
        trace w' = trace w ++ evs
        /\ answered unmarshal UserAccountResponse.zero v
             ("https://us-prof.np.community.playstation.net/userProfile/v1/users/"
              ++ onlineId ++ "/profile2?fields=accountId,onlineId,currentOnlineId")%string
             evs)
  /\ (forall unmarshal c ctx accountId w v c' w',
         GetUserProfile P unmarshal c ctx accountId w = Some ((Ok v, c'), w') ->
         exists evs,
           trace w' = trace w ++ evs
           /\ answered unmarshal UserProfileResponse.zero v
                ("https://m.np.playstation.com/api/userProfile/v1/internal/users/"
                 ++ accountId ++ "/profiles")%string
                evs)
  /\ (forall (any : Type) (unmarshal : Unmarshaler (UserGamesResponse.t any))
             c ctx accountId w v c' w',
         GetUserGames P unmarshal c ctx accountId w = Some ((Ok v, c'), w') ->
         exists evs,
           trace w' = trace w ++ evs
           /\ answered unmarshal (UserGamesResponse.zero any) v
                ("https://m.np.playstation.com/api/gamelist/v2/users/"
                 ++ accountId ++ "/titles?limit=10")%string
                evs).
Proof.
  assert (Hgen : forall (V : Type) (unmarshal : Unmarshaler V) (zero v : V) c ctx url w c' w',
             bind (requestAndUnmarshal P unmarshal c ctx url zero)
               (fun x => let '(err, response, c) := x in
                         match err with
                         | Some err => ret (Fail err, c)
                         | None => ret (Ok response, c)
                         end) w = Some ((Ok v, c'), w') ->
             exists evs, trace w' = trace w ++ evs /\ answered unmarshal zero v url evs).
  { intros V unmarshal zero v c ctx url w c' w' H.
    apply bind_Some in H as ([[err v0] c0] & w0 & Hrun & H).
    destruct err as [e |]; [discriminate H |].
    injection H as <- <- <-.
    destruct (requestAndUnmarshal_success_inv P _ _ _ _ _ _ _ _ _ _ Hrun)
      as (evs & req & resp & body & re & Htr & Hin & Hb & Hm & Hu & Hst & Hbody & _ & _ & Hdec).
    exists evs. split; [exact Htr |]. exists req, resp, body. auto 10. }
  split_and!.
  - intros unmarshal c ctx onlineId w v c' w' H. exact (Hgen _ _ _ _ _ _ _ _ _ _ H).
  - intros unmarshal c ctx accountId w v c' w' H. exact (Hgen _ _ _ _ _ _ _ _ _ _ H).
  - intros any unmarshal c ctx accountId w v c' w' H. exact (Hgen _ _ _ _ _ _ _ _ _ _ H).
Qed.

Lemma queries_success_witness :
  exists c' w',
    GetUserAccountId (Fixture.good (Fixture.respond 200 "james")) Scenario.unmarshalAccount
      Fixture.valid Fixture.background "james" Fixture.w0
    = Some ((Ok (UserAccountResponse.mk (UserAccountResponse.mkProfile "james" "42" "james")),
             c'), w')
    /\ answered Scenario.unmarshalAccount UserAccountResponse.zero
         (UserAccountResponse.mk (UserAccountResponse.mkProfile "james" "42" "james"))
         "https://us-prof.np.community.playstation.net/userProfile/v1/users/james/profile2?fields=accountId,onlineId,currentOnlineId"
         (trace w').
Proof.
  eassert (Hrun : GetUserAccountId (Fixture.good (Fixture.respond 200 "james"))
                    Scenario.unmarshalAccount Fixture.valid Fixture.background
                    "james" Fixture.w0
                  = Some ((Ok _, _), _)) by (vm_compute; reflexivity).
  destruct (queries_success (Fixture.good (Fixture.respond 200 "james"))) as (H & _).
  destruct (H _ _ _ _ _ _ _ _ Hrun) as (evs & Htr & Hans).
  eexists _, _. split; [exact Hrun |].
  cbn [trace Fixture.w0 app] in Htr. rewrite Htr. exact Hans.
Defined.

(** X15. An error of the protected call comes out of each of the three
    queries as it is, with the world and the session the call left: so
    on a session without access token they fail with the validation
    error and send nothing, and a 404 names the full URL. *)
Theorem queries_pass_errors (P : Platform) :
  (forall unmarshal c ctx onlineId w e c' w',
      request P c ctx
        ("https://us-prof.np.community.playstation.net/userProfile/v1/users/"
         ++ onlineId ++ "/profile2?fields=accountId,onlineId,currentOnlineId")%string w
      = Some ((Fail e, c'), w') ->
      GetUserAccountId P unmarshal c ctx onlineId w = Some ((Fail e, c'), w'))
  /\ (forall unmarshal c ctx accountId w e c' w',
         request P c ctx
           ("https://m.np.playstation.com/api/userProfile/v1/internal/users/"
            ++ accountId ++ "/profiles")%string w
         = Some ((Fail e, c'), w') ->
         GetUserProfile P unmarshal c ctx accountId w = Some ((Fail e, c'), w'))
  /\ (forall (any : Type) (unmarshal : Unmarshaler (UserGamesResponse.t any))
             c ctx accountId w e c' w',
         request P c ctx
           ("https://m.np.playstation.com/api/gamelist/v2/users/"
            ++ accountId ++ "/titles?limit=10")%string w
         = Some ((Fail e, c'), w') ->
         GetUserGames P unmarshal c ctx accountId w = Some ((Fail e, c'), w')).
Proof.
  split_and!.
  - intros unmarshal c ctx onlineId w e c' w' H.
    unfold GetUserAccountId, requestAndUnmarshal, bind. rewrite H. reflexivity.
  - intros unmarshal c ctx accountId w e c' w' H.
    unfold GetUserProfile, requestAndUnmarshal, bind. rewrite H. reflexivity.
  - intros any unmarshal c ctx accountId w e c' w' H.
    unfold GetUserGames, requestAndUnmarshal, bind. rewrite H. reflexivity.
Qed.

Lemma queries_pass_errors_witness :
  GetUserProfile (Fixture.good (Fixture.respond 200 "{}")) (fun _ v => (None, v))
    Fixture.unauthenticated Fixture.background "42" Fixture.w0
  = Some ((Fail ErrInvalidTokens, Fixture.unauthenticated), Fixture.w0).
Proof.
  destruct (queries_pass_errors (Fixture.good (Fixture.respond 200 "{}"))) as (_ & H & _).
  apply H. reflexivity.
Defined.

(** ** Authenticate and the error chains *)

Lemma validateNPSSO_None (npsso : string) :
  validateNPSSO npsso = None -> String.length npsso = 64%nat /\ npsso <> ""%string.
Proof.
  unfold validateNPSSO.
  destruct (String.eqb npsso "") eqn:He; [discriminate |].
  destruct (Nat.eqb (String.length npsso) 64) eqn:Hl; [| discriminate].
  intros _. split; [apply Nat.eqb_eq, Hl | apply String.eqb_neq, He].
Qed.

Lemma errors_Is_refl (e : error) : errors_Is e e = true.
Proof. destruct e; cbn [errors_Is]; destruct (error_eq_dec _ _); congruence. Qed.

Lemma errors_Is_unwrap (err e target : error) :
  Unwrap err = Some e -> errors_Is e target = true -> errors_Is err target = true.
Proof.
  intros Hu He.
  destruct err; try discriminate Hu; injection Hu as ->;
    cbn [errors_Is]; destruct (error_eq_dec _ _); auto.
Qed.

(** X16. What [Authenticate] returns. A session only for a credential
    of length 64, with the client, the credential and the tokens of the
    exchange; otherwise the validation error, with the world untouched,
    or the error of the exchange, which is never "npsso parameter is
    required": the exchange's own test of the credential cannot fail
    behind the validator. *)
Theorem Authenticate_outcomes (P : Platform) (c : Client) (ctx : Context)
    (npsso : string) (w w' : World) (r : result ClientAPI) :
  Authenticate P c ctx npsso w = Some (r, w') ->
  match r with
  | Ok api =>
      String.length npsso = 64%nat
      /\ Client_ api = c /\ NPSSO api = npsso
      /\ exists tokens, Tokens_ api = Some tokens
                        /\ authRequest P c ctx npsso w = Some (Ok tokens, w')
  | Fail err =>
      (exists e, err = ErrInvalidNPSSO e /\ validateNPSSO npsso = Some e /\ w' = w)
      \/ (exists e, err = ErrAuthRequest e /\ e <> ErrNPSSORequired
                    /\ String.length npsso = 64%nat
                    /\ authRequest P c ctx npsso w = Some (Fail e, w'))
  end.
Proof.
  unfold Authenticate. intros H.
  destruct (validateNPSSO npsso) as [e |] eqn:Hv.
  { injection H as <- <-. left. eauto. }
  apply validateNPSSO_None in Hv as (Hlen & Hne).
  apply bind_Some in H as (ra & w1 & Hauth & H).
  destruct ra as [tokens | e]; injection H as <- <-.
  - cbn [Client_ NPSSO Tokens_]. eauto 6.
  - right. exists e. split; [reflexivity |]. split; [| auto].
    intros ->.
    destruct (authRequest_shape P _ _ _ _ _ _ Hauth) as (evs & _ & _ & Hreq & _).
    apply Hne, Hreq. reflexivity.
Qed.

Lemma Authenticate_outcomes_witness :
  exists api w',
    Authenticate (Fixture.good (Fixture.respond 200 "{}")) Fixture.client
      Fixture.background Fixture.npsso Fixture.w0 = Some (Ok api, w')
    /\ Client_ api = Fixture.client /\ NPSSO api = Fixture.npsso.
Proof.
  eassert (Hrun : Authenticate (Fixture.good (Fixture.respond 200 "{}")) Fixture.client
                    Fixture.background Fixture.npsso Fixture.w0
                  = Some (Ok _, _)) by (vm_compute; reflexivity).
  pose proof (Authenticate_outcomes _ _ _ _ _ _ _ Hrun) as (_ & Hc & Hn & _).
  eexists _, _. split; [exact Hrun |]. split; [exact Hc | exact Hn].
Defined.

(** X17. [Authenticate] does not look at the tokens it receives: when
    the exchange gives an empty access token, it returns a session all
    the same, and every protected call on that session fails with the
    validation error without sending anything. *)
Theorem Authenticate_empty_access_token (P : Platform) (c : Client) (ctx : Context)
    (npsso : string) (w w' : World) (tokens : Tokens) :
  validateNPSSO npsso = None ->
  authRequest P c ctx npsso w = Some (Ok tokens, w') ->
  AccessToken tokens = ""%string ->
  let api := mkClientAPI c (Some tokens) npsso in
  Authenticate P c ctx npsso w = Some (Ok api, w')
  /\ forall ctx2 url w2,
       request P api ctx2 url w2 = Some ((Fail ErrInvalidTokens, api), w2).
Proof.
  intros Hv Hauth Hempty api. split.
  - unfold Authenticate, bind. rewrite Hv, Hauth. reflexivity.
  - intros ctx2 url w2. unfold request. cbn [api Tokens_]. rewrite Hempty. reflexivity.
Qed.

Lemma Authenticate_empty_access_token_witness :
  exists api w',
    Authenticate Scenario.emptyToken Fixture.client Fixture.background Fixture.npsso
      Fixture.w0 = Some (Ok api, w')
    /\ request Scenario.emptyToken api Fixture.background Fixture.url w'
       = Some ((Fail ErrInvalidTokens, api), w').
Proof.
  eassert (Hauth : authRequest Scenario.emptyToken Fixture.client Fixture.background
                     Fixture.npsso Fixture.w0
                   = Some (Ok _, _)) by (vm_compute; reflexivity).
  edestruct (Authenticate_empty_access_token Scenario.emptyToken Fixture.client
               Fixture.background Fixture.npsso Fixture.w0) as (Hrun & Hdead).
  - reflexivity.
  - exact Hauth.
  - reflexivity.
  - eexists _, _. split; [exact Hrun | apply Hdead].
Defined.

(** X18. A credential the validator rejects comes back from
    [Authenticate] as a plain error: its text ends with the
    validator's message, but it wraps nothing, so that [errors.Is]
    finds neither [ErrNPSSOEmpty] nor [ErrNPSSOLength] in it. *)
Theorem Authenticate_validation_not_wrapped (P : Platform) (c : Client) (ctx : Context)
    (npsso : string) (w : World) (e : error) :
  validateNPSSO npsso = Some e ->
  exists err,
    Authenticate P c ctx npsso w = Some (Fail err, w)
    /\ Error err = ("invalid npsso: " ++ Error e)%string
    /\ Unwrap err = None
    /\ errors_Is err ErrNPSSOEmpty = false
    /\ errors_Is err ErrNPSSOLength = false.
Proof.
  intros Hv. exists (ErrInvalidNPSSO e).
  unfold Authenticate. rewrite Hv.
  split; [reflexivity |]. split; [reflexivity |]. split; [reflexivity |].
  split; cbn [errors_Is]; destruct (error_eq_dec _ _) as [E |];
    try discriminate E; reflexivity.
Qed.

Lemma Authenticate_validation_not_wrapped_witness :
  exists err,
    Authenticate (Fixture.good (Fixture.respond 200 "{}")) Fixture.client
      Fixture.background "" Fixture.w0 = Some (Fail err, Fixture.w0)
    /\ Error err = "invalid npsso: npsso is empty"%string
    /\ errors_Is err ErrNPSSOEmpty = false.
Proof.
  destruct (Authenticate_validation_not_wrapped (Fixture.good (Fixture.respond 200 "{}"))
              Fixture.client Fixture.background "" Fixture.w0 ErrNPSSOEmpty eq_refl)
    as (err & Hrun & Htext & _ & Hempty & _).
  exists err. split; [exact Hrun |]. split; [exact Htext | exact Hempty].
Defined.

(** X19. A cancellation found by the exchange stays reachable: when
    the context reported the error [e] at one of its checks,
    [Authenticate] fails with an error in whose chain [errors.Is] finds
    [e], and so does a protected call that was refreshing, which also
    leaves its session as it was. *)
Theorem cancellation_is_wrapped (P : Platform) (ctx : Context) (e : error) :
  (forall c npsso w w' r evs,
      Authenticate P c ctx npsso w = Some (r, w') ->
      trace w' = trace w ++ evs ->
      In (EvCtxErr (Some e)) evs ->
      exists err, r = Fail err /\ errors_Is err e = true)
  /\ (forall c url w w' r c' evs,
         request P c ctx url w = Some ((r, c'), w') ->
         trace w' = trace w ++ evs ->
         In (EvCtxErr (Some e)) evs ->
         exists err, r = Fail err /\ errors_Is err e = true /\ c' = c).
Proof.
  assert (Hex : forall c npsso w w' r evs,
             authRequest P c ctx npsso w = Some (r, w') ->
             trace w' = trace w ++ evs ->
             In (EvCtxErr (Some e)) evs ->
             exists err, r = Fail err /\ errors_Is err e = true).
  { intros c npsso w w' r evs Hauth Htr Hin.
    destruct (authRequest_shape P _ _ _ _ _ _ Hauth) as (evs' & Htr' & _ & _ & Hc).
    rewrite Htr in Htr'. apply app_inv_head in Htr'. subst evs.
    destruct Hin as [E | Hin]; [discriminate E |].
    destruct (Hc _ Hin) as [-> | ->]; eexists; (split; [reflexivity |]);
      (eapply errors_Is_unwrap; [reflexivity | apply errors_Is_refl]). }
  split.
  - intros c npsso w w' r evs Hrun Htr Hin.
    unfold Authenticate in Hrun.
    destruct (validateNPSSO npsso).
    { injection Hrun as <- <-.
      rewrite <- (app_nil_r (trace w)) in Htr at 1. apply app_inv_head in Htr.
      subst evs. destruct Hin. }
    apply bind_Some in Hrun as (ra & w1 & Hauth & Hrun).
    assert (Hw : w1 = w') by (destruct ra; injection Hrun as _ <-; reflexivity).
    subst w1.
    destruct (Hex _ _ _ _ _ _ Hauth Htr Hin) as (err & -> & His).
    injection Hrun as <-. eexists. split; [reflexivity |].
    eapply errors_Is_unwrap; [reflexivity | exact His].
  - intros c url w w' r c' evs Hrun Htr Hin.
    apply request_inv in Hrun.
    destruct Hrun as [(-> & -> & -> & _) | (tokens & Htok & _ & H)].
    { rewrite <- (app_nil_r (trace w)) in Htr at 1. apply app_inv_head in Htr.
      subst evs. destruct Hin. }
    cbv zeta in H.
    destruct H as [(_ & -> & Hd) | (_ & ra & w2 & Hauth & H)].
    + destruct (dispatch_requests P _ _ _ _ _ _ _ Htok Hd) as (evD & HtrD & _ & Hno).
      cbn [trace] in HtrD. rewrite HtrD, <- app_assoc in Htr.
      apply app_inv_head in Htr. subst evs.
      destruct Hin as [E | Hin]; [discriminate E | destruct (Hno _ Hin)].
    + destruct (authRequest_shape P _ _ _ _ _ _ Hauth) as (evA & HtrA & _ & _ & Hc).
      cbn [trace] in HtrA.
      destruct ra as [newTokens | ea].
      * destruct H as (-> & Hd).
        destruct (dispatch_requests P (setTokens c newTokens) _ _ _ _ _ newTokens
                    eq_refl Hd) as (evD & HtrD & _ & Hno).
        rewrite HtrD, HtrA in Htr. repeat rewrite <- app_assoc in Htr.
        apply app_inv_head in Htr. subst evs. cbn [app] in Hin.
        destruct Hin as [E | [E | Hin]]; try discriminate E.
        apply in_app_or in Hin as [Hin | Hin]; [| destruct (Hno _ Hin)].
        destruct (Hc _ Hin) as [E | E]; discriminate E.
      * destruct H as (-> & -> & ->).
        rewrite HtrA, <- app_assoc in Htr. apply app_inv_head in Htr. subst evs.
        cbn [app] in Hin.
        destruct Hin as [E | [E | Hin]]; try discriminate E.
        destruct (Hc _ Hin) as [E | E]; injection E as ->;
          eexists; (split; [reflexivity |]); (split; [| reflexivity]);
          (eapply errors_Is_unwrap; [reflexivity |]);
          (eapply errors_Is_unwrap; [reflexivity | apply errors_Is_refl]).
Qed.

Lemma cancellation_is_wrapped_witness :
  exists err w',
    Authenticate (Fixture.good (Fixture.respond 200 "{}")) Fixture.client
      Scenario.late Fixture.npsso Fixture.w0 = Some (Fail err, w')
    /\ Error err = "can't do auth request: token request cancelled: context canceled"%string
    /\ errors_Is err (ErrExternal "context canceled") = true.
Proof.
  eassert (Hrun : Authenticate (Fixture.good (Fixture.respond 200 "{}")) Fixture.client
                    Scenario.late Fixture.npsso Fixture.w0
                  = Some (Fail _, _)) by (vm_compute; reflexivity).
  destruct (cancellation_is_wrapped (Fixture.good (Fixture.respond 200 "{}"))
              Scenario.late (ErrExternal "context canceled")) as (H & _).
  destruct (H _ _ _ _ _ _ Hrun eq_refl) as (err & Herr & His).
  - cbn. do 4 right. left. reflexivity.
  - injection Herr as <-. eexists _, _. split; [exact Hrun |].
    split; [reflexivity | exact His].
Defined.

(** ** Client builder: options *)

Lemma applyOptions_app (opts1 opts2 : list (option Options)) (c : Client) (w : World) :
  applyOptions (opts1 ++ opts2) c w
  = match applyOptions opts1 c w with
    | Some (c1, w1) => applyOptions opts2 c1 w1
    | None => None
    end.
Proof.
  revert c. induction opts1 as [| [o |] opts1 IH]; intros c; cbn [app applyOptions].
  - reflexivity.
  - apply IH.
  - reflexivity.
Qed.

Lemma applyOptions_nil (opts : list (option Options)) (c : Client) (w : World) :
  In None opts -> applyOptions opts c w = None.
Proof.
  revert c. induction opts as [| [o |] opts IH]; intros c Hin; cbn [applyOptions].
  - destruct Hin.
  - destruct Hin as [E | Hin]; [discriminate E | exact (IH _ Hin)].
  - reflexivity.
Qed.

Lemma applyOptions_any_world (opts : list (option Options)) (c c' : Client) (w w' w2 : World) :
  applyOptions opts c w = Some (c', w') -> applyOptions opts c w2 = Some (c', w2).
Proof.
  revert c. induction opts as [| [o |] opts IH]; intros c H; cbn [applyOptions] in *.
  - injection H as <- _. reflexivity.
  - exact (IH _ H).
  - discriminate H.
Qed.

(** [NewClient], read both ways. *)
Lemma NewClient_inv (P : Platform) (opts : list (option Options)) (w w' : World)
    (c : Client) :
  NewClient P opts w = Some (c, w') <->
  exists configured p source,
    applyOptions opts (defaultConfig P) w = Some (configured, w)
    /\ httpClient configured = Some p
    /\ heap w !! p = Some source
    /\ c = mkClient (Some (fresh (dom (heap w)))) (lang configured) (region configured)
    /\ w' = mkWorld (<[fresh (dom (heap w)) := setCheckRedirect source useLastResponse]>
                       (heap w)) (trace w).
Proof.
  unfold NewClient. split.
  - intros H.
    apply bind_Some in H as (configured & w1 & Hopts & H).
    pose proof (applyOptions_world _ _ _ _ _ Hopts) as ->.
    apply bind_Some in H as (source & w2 & Hderef & H).
    unfold deref in Hderef.
    destruct (httpClient configured) as [p |] eqn:Hp; [| discriminate Hderef].
    destruct (heap w !! p) as [source' |] eqn:Hsource; [| discriminate Hderef].
    injection Hderef as -> <-.
    unfold bind, alloc, ret in H. injection H as <- <-.
    exists configured, p, source. auto.
  - intros (configured & p & source & Hopts & Hp & Hsource & -> & ->).
    unfold bind, deref, alloc, ret. rewrite Hopts, Hp, Hsource. reflexivity.
Qed.

(** X20. A nil option makes [NewClient] panic, wherever it stands in
    the list; and nil is the option that [WithLanguage], [WithRegion]
    and [WithClient] return beside their error, for a language or a
    region that is not supported and for a nil client. *)
Theorem NewClient_nil_option (P : Platform) :
  (forall opts w, In None opts -> NewClient P opts w = None)
  /\ (forall l, IsContain_Languages P l = false ->
                WithLanguage P l = (None, Some (ErrUnsupportedLang l)))
  /\ (forall r, IsContain_Regions P r = false ->
                WithRegion P r = (None, Some (ErrUnsupportedRegion r)))
  /\ WithClient None = (None, Some ErrNilHttpClient).
Proof.
  split_and!.
  - intros opts w Hin. unfold NewClient, bind.
    rewrite (applyOptions_nil _ _ _ Hin). reflexivity.
  - intros l H. unfold WithLanguage. rewrite H. reflexivity.
  - intros r H. unfold WithRegion. rewrite H. reflexivity.
  - reflexivity.
Qed.

Lemma NewClient_nil_option_witness :
  NewClient (Fixture.good (Fixture.respond 200 "{}"))
    [fst (WithRegion (Fixture.good (Fixture.respond 200 "{}")) "fr");
     fst (WithLanguage (Fixture.good (Fixture.respond 200 "{}")) "xx")]
    Fixture.w0 = None.
Proof.
  destruct (NewClient_nil_option (Fixture.good (Fixture.respond 200 "{}"))) as (H & _).
  apply H. right. left. reflexivity.
Defined.

(** X21. The last option wins. With a language option at the end of
    the list, the client has that language, which is a supported one,
    and is otherwise the client of the list without it; the same for a
    region option; and with a client option at the end, the
    [http.Client] of the result is the copy of the one given. *)
Theorem NewClient_last_option_wins (P : Platform) (opts : list (option Options))
    (o : Options) (w w' : World) (c : Client) :
  NewClient P (opts ++ [Some o]) w = Some (c, w') ->
  (forall l, WithLanguage P l = (Some o, None) ->
             IsContain_Languages P l = true /\ lang c = l
             /\ exists c0, NewClient P opts w = Some (c0, w')
                           /\ c = mkClient (httpClient c0) l (region c0))
  /\ (forall r, WithRegion P r = (Some o, None) ->
                IsContain_Regions P r = true /\ region c = r
                /\ exists c0, NewClient P opts w = Some (c0, w')
                              /\ c = mkClient (httpClient c0) (lang c0) r)
  /\ (forall p, WithClient p = (Some o, None) ->
                exists l source,
                  p = Some l /\ heap w !! l = Some source
                  /\ exists l', httpClient c = Some l' /\ l' <> l
                       /\ heap w' !! l' = Some (setCheckRedirect source useLastResponse)
                       /\ heap w' !! l = Some source).
Proof.
  intros H. apply NewClient_inv in H.
  destruct H as (configured & p0 & source & Hopts & Hp & Hsource & -> & ->).
  rewrite applyOptions_app in Hopts.
  destruct (applyOptions opts (defaultConfig P) w) as [[c1 w1] |] eqn:Hopts1;
    [| discriminate Hopts].
  pose proof (applyOptions_world _ _ _ _ _ Hopts1) as ->.
  cbn [applyOptions ret] in Hopts. injection Hopts as <-.
  split_and!.
  - intros l Hwith. unfold WithLanguage in Hwith.
    destruct (IsContain_Languages P l); cbn [negb] in Hwith; [| discriminate Hwith].
    injection Hwith as <-. cbn [httpClient lang region] in *.
    split; [reflexivity |]. split; [reflexivity |].
    exists (mkClient (Some (fresh (dom (heap w)))) (lang c1) (region c1)).
    split; [| reflexivity].
    apply NewClient_inv. exists c1, p0, source. auto.
  - intros r Hwith. unfold WithRegion in Hwith.
    destruct (IsContain_Regions P r); cbn [negb] in Hwith; [| discriminate Hwith].
    injection Hwith as <-. cbn [httpClient lang region] in *.
    split; [reflexivity |]. split; [reflexivity |].
    exists (mkClient (Some (fresh (dom (heap w)))) (lang c1) (region c1)).
    split; [| reflexivity].
    apply NewClient_inv. exists c1, p0, source. auto.
  - intros p Hwith. unfold WithClient in Hwith.
    destruct p as [l |]; [| discriminate Hwith].
    injection Hwith as <-. cbn [httpClient] in Hp. injection Hp as <-.
    exists l, source. split; [reflexivity |]. split; [exact Hsource |].
    assert (Hfresh : heap w !! fresh (dom (heap w)) = None)
      by (apply not_elem_of_dom; apply is_fresh).
    assert (Hne : fresh (dom (heap w)) <> l) by (intros E; rewrite E in Hfresh; congruence).
    exists (fresh (dom (heap w))). cbn [httpClient heap].
    split; [reflexivity |]. split; [exact Hne |].
    split; [apply lookup_insert_eq |].
    rewrite lookup_insert_ne; [exact Hsource | exact Hne].
Qed.

Lemma NewClient_last_option_wins_witness :
  exists c w',
    NewClient (Fixture.good (Fixture.respond 200 "{}"))
      ([fst (WithLanguage (Fixture.good (Fixture.respond 200 "{}")) "en");
        fst (WithRegion (Fixture.good (Fixture.respond 200 "{}")) "fr")]
       ++ [Some (fun c => mkClient (httpClient c) "fr" (region c))])
      Fixture.w0 = Some (c, w')
    /\ lang c = "fr"%string /\ region c = "fr"%string.
Proof.
  eassert (Hrun : NewClient (Fixture.good (Fixture.respond 200 "{}"))
                    ([fst (WithLanguage (Fixture.good (Fixture.respond 200 "{}")) "en");
                      fst (WithRegion (Fixture.good (Fixture.respond 200 "{}")) "fr")]
                     ++ [Some (fun c => mkClient (httpClient c) "fr" (region c))])
                    Fixture.w0
                  = Some (_, _)) by (vm_compute; reflexivity).
  destruct (NewClient_last_option_wins _ _ _ _ _ _ Hrun) as (Hl & _).
  destruct (Hl "fr"%string eq_refl) as (_ & Hlang & _).
  eexists _, _. split; [exact Hrun |]. split; [exact Hlang | reflexivity].
Defined.

(** X22. Two clients built from the same options do not share their
    [http.Client]: the second [NewClient] returns too, with the same
    language and region, and its [http.Client] is another object with
    the same content as the first one's. *)
Theorem NewClient_twice (P : Platform) (opts : list (option Options))
    (w w1 : World) (c1 : Client) :
  NewClient P opts w = Some (c1, w1) ->
  exists c2 w2 l1 l2 hc,
    NewClient P opts w1 = Some (c2, w2)
    /\ httpClient c1 = Some l1 /\ httpClient c2 = Some l2 /\ l1 <> l2
    /\ lang c2 = lang c1 /\ region c2 = region c1
    /\ heap w2 !! l1 = Some hc /\ heap w2 !! l2 = Some hc.
Proof.
  intros H. apply NewClient_inv in H.
  destruct H as (configured & p & source & Hopts & Hp & Hsource & -> & ->).
  set (l1 := fresh (dom (heap w))).
  set (h1 := <[l1 := setCheckRedirect source useLastResponse]> (heap w)).
  set (l2 := fresh (dom h1)).
  assert (Hfresh1 : heap w !! l1 = None) by (apply not_elem_of_dom; apply is_fresh).
  assert (Hfresh2 : h1 !! l2 = None) by (apply not_elem_of_dom; apply is_fresh).
  assert (Hl1 : h1 !! l1 = Some (setCheckRedirect source useLastResponse))
    by apply lookup_insert_eq.
  assert (Hne : l1 <> l2) by (intros E; rewrite <- E in Hfresh2; congruence).
  assert (Hp1 : h1 !! p = Some source).
  { subst h1. rewrite lookup_insert_ne; [exact Hsource |]. intros E.
    rewrite E in Hfresh1. congruence. }
  exists (mkClient (Some l2) (lang configured) (region configured)),
    (mkWorld (<[l2 := setCheckRedirect source useLastResponse]> h1) (trace w)),
    l1, l2, (setCheckRedirect source useLastResponse).
  split.
  { apply NewClient_inv. exists configured, p, source. cbn [heap trace].
    split; [exact (applyOptions_any_world _ _ _ _ _ _ Hopts) |]. auto. }
  cbn [httpClient lang region heap].
  split_and!; try reflexivity; try assumption.
  - rewrite lookup_insert_ne; [exact Hl1 | congruence].
  - apply lookup_insert_eq.
Qed.

Lemma NewClient_twice_witness :
  exists c1 w1 c2 w2,
    NewClient (Fixture.good (Fixture.respond 200 "{}")) [] Fixture.w0 = Some (c1, w1)
    /\ NewClient (Fixture.good (Fixture.respond 200 "{}")) [] w1 = Some (c2, w2)
    /\ httpClient c1 <> httpClient c2.
Proof.
  eassert (Hrun : NewClient (Fixture.good (Fixture.respond 200 "{}")) [] Fixture.w0
                  = Some (_, _)) by (vm_compute; reflexivity).
  destruct (NewClient_twice _ _ _ _ _ Hrun)
    as (c2 & w2 & l1 & l2 & hc & Hrun2 & H1 & H2 & Hne & _).
  eexists _, _, c2, w2. split; [exact Hrun |]. split; [exact Hrun2 |].
  rewrite H2. cbn [httpClient] in *. intros E. apply Hne. congruence.
Defined.

(** ** Client builder and calls, together *)

Lemma request_returns (P : Platform) (c : ClientAPI) (ctx : Context) (url : string)
    (w : World) (l : loc) (hc : HttpClient) :
  httpClient (Client_ c) = Some l ->
  heap w !! l = Some hc ->
  exists r c' w', request P c ctx url w = Some ((r, c'), w') /\ heap w' = heap w.
Proof.
  intros Hc Hl. rewrite request_unfold.
  destruct (Tokens_ c) as [tokens |] eqn:Htok; [| eauto].
  destruct (String.eqb (AccessToken tokens) ""); [eauto |].
  cbv zeta. destruct (Time_Before _ _).
  - destruct (authRequest_returns P (Client_ c) ctx (NPSSO c)
                (mkWorld (heap w) (trace w ++ [EvNow (time_Now P (trace w))]))
                l hc Hc Hl) as (ra & w2 & Hauth).
    destruct (authRequest_events P _ _ _ _ _ _ Hauth) as (Hh & _).
    cbn [heap] in Hh. rewrite Hauth.
    destruct ra as [newTokens | e]; [| eauto].
    assert (Hl2 : heap w2 !! l = Some hc) by (rewrite Hh; exact Hl).
    destruct (dispatch_returns P (setTokens c newTokens) ctx url w2 newTokens l hc
                eq_refl Hc Hl2) as (r & w3 & Hd).
    destruct (dispatch_events P (setTokens c newTokens) _ _ _ _ _ newTokens eq_refl Hd)
      as (Hh3 & _).
    rewrite Hd. exists r, (setTokens c newTokens), w3. split; [reflexivity | congruence].
  - destruct (dispatch_returns P c ctx url
                (mkWorld (heap w) (trace w ++ [EvNow (time_Now P (trace w))]))
                tokens l hc Htok Hc Hl) as (r & w3 & Hd).
    destruct (dispatch_events P _ _ _ _ _ _ _ Htok Hd) as (Hh3 & _).
    rewrite Hd. exists r, c, w3. split; [reflexivity | exact Hh3].
Qed.

(** X23. A client that [NewClient] returned can be used: in the world
    it was built in, and in any later world with the same heap,
    [Authenticate] through it returns (a session or an error, never a
    panic) and leaves the heap as it is, and so does a protected call
    on any session of that client. *)
Theorem NewClient_client_usable (P : Platform) (opts : list (option Options))
    (w w' : World) (c : Client) :
  NewClient P opts w = Some (c, w') ->
  forall w1, heap w1 = heap w' ->
  (forall ctx npsso,
      exists r w2, Authenticate P c ctx npsso w1 = Some (r, w2) /\ heap w2 = heap w1)
  /\ (forall tokens npsso ctx url,
         exists r c' w2,
           request P (mkClientAPI c tokens npsso) ctx url w1 = Some ((r, c'), w2)
           /\ heap w2 = heap w1).
Proof.
  intros H w1 Hh. apply NewClient_inv in H.
  destruct H as (configured & p & source & _ & _ & _ & -> & ->).
  cbn [heap] in Hh.
  assert (Hl : heap w1 !! fresh (dom (heap w))
               = Some (setCheckRedirect source useLastResponse))
    by (rewrite Hh; apply lookup_insert_eq).
  split.
  - intros ctx npsso. unfold Authenticate.
    destruct (validateNPSSO npsso); [eexists _, _; split; reflexivity |].
    destruct (authRequest_returns P
                (mkClient (Some (fresh (dom (heap w)))) (lang configured)
                   (region configured))
                ctx npsso w1 _ _ eq_refl Hl) as (ra & w2 & Hauth).
    destruct (authRequest_events P _ _ _ _ _ _ Hauth) as (Hh2 & _).
    unfold bind. rewrite Hauth.
    destruct ra; eexists _, _; (split; [reflexivity | exact Hh2]).
  - intros tokens npsso ctx url.
    exact (request_returns P
             (mkClientAPI
                (mkClient (Some (fresh (dom (heap w)))) (lang configured)
                   (region configured)) tokens npsso)
             ctx url w1 _ _ eq_refl Hl).
Qed.

Lemma NewClient_client_usable_witness :
  exists c w' r w2,
    NewClient (Fixture.good (Fixture.respond 200 "{}"))
      [fst (WithClient (Some 2%positive))] Fixture.w0 = Some (c, w')
    /\ Authenticate (Fixture.good (Fixture.respond 200 "{}")) c Fixture.background
         Fixture.npsso w' = Some (r, w2)
    /\ heap w2 = heap w'.
Proof.
  eassert (Hrun : NewClient (Fixture.good (Fixture.respond 200 "{}"))
                    [fst (WithClient (Some 2%positive))] Fixture.w0
                  = Some (_, _)) by (vm_compute; reflexivity).
  destruct (NewClient_client_usable _ _ _ _ _ Hrun _ eq_refl) as (Hauth & _).
  destruct (Hauth Fixture.background Fixture.npsso) as (r & w2 & Hr & Hh).
  eexists _, _, r, w2. split; [exact Hrun |]. split; [exact Hr | exact Hh].
Defined.

(** ** Protected calls: the answer *)

(** X24. A protected call with an access token still good, once the
    server has answered the GET. When the body cannot be read the call
    fails with the read error whatever the status, 404 and 429
    included; otherwise the status decides. A failure to close the body
    prints a line and changes nothing else. And when the transport
    fails instead of answering, the call fails with the send error
    around the transport's error. In all cases the session is as it
    was. *)
Theorem request_answered (P : Platform) (c : ClientAPI) (ctx : Context) (url : string)
    (w : World) (tokens : Tokens) (l : loc) (hc : HttpClient) :
  Tokens_ c = Some tokens ->
  AccessToken tokens <> ""%string ->
  time_Now P (trace w) <= AccessExpiresTime tokens ->
  (exists u, url_Parse P url = Ok u) ->
  httpClient (Client_ c) = Some l ->
  heap w !! l = Some hc ->
  let t := time_Now P (trace w) in
  let req := resourceRequest url (AccessToken tokens) (lang (Client_ c)) in
  (forall resp,
      http_Do P hc (trace w ++ [EvNow t]) req = Ok resp ->
      request P c ctx url w
      = Some ((match Body resp with
               | Ok body => handleStatus url (StatusCode resp) body
               | Fail e => Fail (ErrReadingBody e)
               end, c),
              mkWorld (heap w)
                (trace w ++ [EvNow t; EvDo req (Ok resp)]
                 ++ (if CloseFails resp then [EvPrintln "Error closing body"] else []))))
  /\ (forall e,
         http_Do P hc (trace w ++ [EvNow t]) req = Fail e ->
         request P c ctx url w
         = Some ((Fail (ErrSendingRequest e), c),
                 mkWorld (heap w) (trace w ++ [EvNow t; EvDo req (Fail e)]))).
Proof.
  intros Htok Hne Hle [u Hurl] Hc Hl t req.
  apply String.eqb_neq in Hne.
  assert (Hnb : Time_Before (AccessExpiresTime tokens) t = false)
    by (apply Z.ltb_ge; exact Hle).
  assert (Hreq : (if negb (String.eqb (lang (Client_ c)) "")
                  then Request_Header_Set
                         (Request_Header_Set
                            (Request_Header_Set (mkRequest "GET" url [] "")
                               "Authorization" ("Bearer " ++ AccessToken tokens)%string)
                            "Accept" "application/json")
                         "Accept-Language" (lang (Client_ c))
                  else Request_Header_Set
                         (Request_Header_Set (mkRequest "GET" url [] "")
                            "Authorization" ("Bearer " ++ AccessToken tokens)%string)
                         "Accept" "application/json") = req).
  { subst req. unfold resourceRequest.
    destruct (String.eqb (lang (Client_ c)) ""); reflexivity. }
  assert (Hdispatch : forall res,
             http_Do P hc (trace w ++ [EvNow t]) req = res ->
             dispatch P c ctx url (mkWorld (heap w) (trace w ++ [EvNow t]))
             = match res with
               | Fail e =>
                   Some (Fail (ErrSendingRequest e),
                         mkWorld (heap w) ((trace w ++ [EvNow t]) ++ [EvDo req (Fail e)]))
               | Ok resp =>
                   (bind (if CloseFails resp then emit (EvPrintln "Error closing body")
                          else ret tt)
                      (fun _ => ret match Body resp with
                                    | Ok body => handleStatus url (StatusCode resp) body
                                    | Fail e => Fail (ErrReadingBody e)
                                    end))
                     (mkWorld (heap w) ((trace w ++ [EvNow t]) ++ [EvDo req (Ok resp)]))
               end).
  { intros res Hdo.
    unfold dispatch, http_NewRequestWithContext. rewrite Hurl, Htok.
    cbv beta iota zeta. rewrite Hreq. unfold bind at 1.
    erewrite clientDo_run; [| exact Hc | exact Hl].
    cbn [heap trace]. rewrite Hdo. destruct res; reflexivity. }
  split.
  - intros resp Hdo.
    rewrite request_unfold, Htok, Hne. cbv zeta. fold t. rewrite Hnb.
    rewrite (Hdispatch _ Hdo). unfold bind, emit, ret.
    destruct (CloseFails resp); cbn [heap trace]; repeat rewrite <- app_assoc;
      cbn [app]; try rewrite app_nil_r; reflexivity.
  - intros e Hdo.
    rewrite request_unfold, Htok, Hne. cbv zeta. fold t. rewrite Hnb.
    rewrite (Hdispatch _ Hdo). rewrite <- app_assoc. reflexivity.
Qed.

Lemma request_answered_witness :
  request (Fixture.good (Ok (mkResponse 404 [] (Fail (ErrExternal "unexpected EOF")) true)))
    Fixture.valid Fixture.background Fixture.url Fixture.w0
  = Some ((Fail (ErrReadingBody (ErrExternal "unexpected EOF")), Fixture.valid),
          mkWorld (heap Fixture.w0)
            [EvNow 1700000000000000000;
             EvDo (resourceRequest Fixture.url "cur" "en")
               (Ok (mkResponse 404 [] (Fail (ErrExternal "unexpected EOF")) true));
             EvPrintln "Error closing body"]).
Proof.
  destruct (request_answered
              (Fixture.good (Ok (mkResponse 404 [] (Fail (ErrExternal "unexpected EOF")) true)))
              Fixture.valid Fixture.background Fixture.url Fixture.w0
              (mkTokens "cur" "B" 3600 5184000 1800000000000000000 1800000000000000000)
              1%positive Fixture.defaultClient) as (H & _).
  - reflexivity.
  - discriminate.
  - cbn. unfold Fixture.clock. cbn. lia.
  - eexists. reflexivity.
  - reflexivity.
  - reflexivity.
  - apply (H (mkResponse 404 [] (Fail (ErrExternal "unexpected EOF")) true)).
    reflexivity.
Defined.
